(** * OrpheusDL command-line front end (orpheus.py)

    A shallow embedding of [interactive_selection] and of the request
    resolution part of [main], followed by the properties of the
    selection validator, the candidate formatter, the URL router and the
    request aggregator.

    Python values are modelled as follows.
    - [str] is a sequence of Unicode code points ([pystr]), so that [len]
      counts characters and the ellipsis is a single one.
    - [int] is [Z].
    - a [dict] is an association list in insertion order.
    - an operation that may raise, call [exit()] or return yields an
      [outcome]; printing, prompting and calls to collaborators are
      logged as a list of [event]s.  *)

From Stdlib Require Import String Ascii.
From Stdlib Require Import ZArith NArith List Bool Lia.
Import ListNotations.
Local Open Scope Z_scope.

(** ** Python strings *)

Definition char := N.
Definition pystr := list char.

(** An ASCII literal of the source. *)
Definition lit (s : string) : pystr := map N_of_ascii (list_ascii_of_string s).

Definition TAB : char := 9%N.
Definition NEWLINE : char := 10%N.
Definition SPACE : char := 32%N.
Definition QUOTE : char := 34%N.
Definition MINUS : char := 45%N.
Definition DOT : char := 46%N.
Definition SLASH : char := 47%N.
Definition COLON : char := 58%N.
Definition PIPE : char := 124%N.
(** U+2026 HORIZONTAL ELLIPSIS *)
Definition ELLIPSIS : char := 8230%N.

Fixpoint str_eqb (a b : pystr) : bool :=
  match a, b with
  | [], [] => true
  | x :: a', y :: b' => (x =? y)%N && str_eqb a' b'
  | _, _ => false
  end.

(** [x in l] for a list of strings. *)
Definition str_in (x : pystr) (l : list pystr) : bool := existsb (str_eqb x) l.

(** [c in s] for a one-character string [c]. *)
Definition char_in (c : char) (s : pystr) : bool := existsb (N.eqb c) s.

Fixpoint startswith (s prefix : pystr) : bool :=
  match prefix, s with
  | [], _ => true
  | p :: prefix', c :: s' => (c =? p)%N && startswith s' prefix'
  | _ :: _, [] => false
  end.

(** [needle in hay] for strings: substring test. *)
Fixpoint contains (needle hay : pystr) : bool :=
  startswith hay needle ||
  match hay with
  | [] => false
  | _ :: hay' => contains needle hay'
  end.

(** [s.split(sep)] for a one-character separator. *)
Fixpoint split (sep : char) (s : pystr) : list pystr :=
  match s with
  | [] => [[]]
  | c :: r =>
      if (c =? sep)%N then [] :: split sep r
      else match split sep r with
           | [] => [[c]]
           | h :: t => (c :: h) :: t
           end
  end.

(** [sep.join(l)] *)
Fixpoint join (sep : pystr) (l : list pystr) : pystr :=
  match l with
  | [] => []
  | [x] => x
  | x :: r => x ++ sep ++ join sep r
  end.

(** The format specification [:<w]: pad with spaces on the right up to
    width [w]; longer strings are left as they are. *)
Definition ljust (w : nat) (s : pystr) : pystr :=
  s ++ repeat SPACE (w - length s).

(** Characters removed by [str.strip()]. *)
Definition isspace_char (c : char) : bool :=
  ((9 <=? c) && (c <=? 13) || (28 <=? c) && (c <=? 32) || (c =? 133) || (c =? 160)
   || (c =? 5760) || (8192 <=? c) && (c <=? 8202) || (c =? 8232) || (c =? 8233)
   || (c =? 8239) || (c =? 8287) || (c =? 12288))%N.

Fixpoint lstrip (s : pystr) : pystr :=
  match s with
  | c :: r => if isspace_char c then lstrip r else s
  | [] => []
  end.

Definition strip (s : pystr) : pystr := rev (lstrip (rev (lstrip s))).

(** Number of occurrences of a character. *)
Definition count (c : char) (s : pystr) : nat := length (filter (N.eqb c) s).

(** ** Decimal rendering: [str(n)] for an [int] *)

Definition digit_char (d : Z) : char := Z.to_N (48 + d).

Fixpoint digits_of (fuel : nat) (n : Z) : pystr :=
  match fuel with
  | O => []
  | S fuel' =>
      if n <? 10 then [digit_char n]
      else digits_of fuel' (n / 10) ++ [digit_char (n mod 10)]
  end.

Definition digits (n : Z) : pystr := digits_of (S (Z.to_nat (Z.log2 n))) n.

Definition str_int (z : Z) : pystr :=
  if z <? 0 then MINUS :: digits (- z) else digits z.

(** ** Data model

    The classes below are declared in [orpheus.core], which is imported
    by the file but is not part of it. *)

(** Modelled from the spec: the media kinds of [DownloadTypeEnum]
    (track, album, playlist, artist), whose declaration is missing. *)
Module DownloadTypeEnum.
Inductive t := track | album | playlist | artist.

Definition name (x : t) : pystr :=
  match x with
  | track => lit "track"
  | album => lit "album"
  | playlist => lit "playlist"
  | artist => lit "artist"
  end.

Definition all : list t := [track; album; playlist; artist].

(** [DownloadTypeEnum[key]]; [None] stands for KeyError. *)
Definition of_name (key : pystr) : option t :=
  find (fun x => str_eqb (name x) key) all.
End DownloadTypeEnum.

(** Modelled from the spec: the [url_decoding] setting of a module is
    either manual or automatic; the declaration of [ManualEnum] is missing. *)
Module ManualEnum.
Inductive t := manual | automatic.
End ManualEnum.

(** The capabilities [main] resolves an override for, in the order of
    the [tpm] dictionary. *)
Module ModuleModes.
Inductive t := covers | lyrics | credits.

Definition name (x : t) : pystr :=
  match x with
  | covers => lit "covers"
  | lyrics => lit "lyrics"
  | credits => lit "credits"
  end.
End ModuleModes.

(** An opaque mapping passed through untouched. *)
Definition kwargs := list (pystr * pystr).

(** [item.artists] is a list of names, or any other value, of which only
    [str(...)] is used: a plain string, or [None]. *)
Inductive Artists :=
| ArtistList (names : list pystr)
| ArtistStr (s : pystr)
| ArtistNone.

(** Modelled from the spec: the fields of a SearchResult. *)
Record SearchResult := {
  result_id : pystr;
  name : pystr;
  artists : Artists;
  year : option Z;
  duration : option Z;
  explicit : bool;
  additional : option (list pystr);
  extra_kwargs : kwargs
}.

(** Modelled from the spec: a MediaIdentification; [extra_kwargs] is
    optional. *)
Record MediaIdentification := {
  media_type : DownloadTypeEnum.t;
  media_id : pystr;
  mi_extra_kwargs : option kwargs
}.

(** [media_to_download]: module name to identifications, in insertion
    order. *)
Definition batch := list (pystr * list MediaIdentification).

Fixpoint dict_get {V} (d : list (pystr * V)) (k : pystr) : option V :=
  match d with
  | [] => None
  | (k', v) :: r => if str_eqb k' k then Some v else dict_get r k
  end.

(** [k in d] *)
Definition dict_mem {V} (d : list (pystr * V)) (k : pystr) : bool :=
  match dict_get d k with Some _ => true | None => false end.

(** [d[k] = v] *)
Fixpoint dict_set {V} (d : list (pystr * V)) (k : pystr) (v : V) : list (pystr * V) :=
  match d with
  | [] => [(k, v)]
  | (k', v') :: r => if str_eqb k' k then (k', v) :: r else (k', v') :: dict_set r k v
  end.

(** [d[k].append(x)] for a key that is present. *)
Fixpoint dict_append {V} (d : list (pystr * list V)) (k : pystr) (x : V)
  : list (pystr * list V) :=
  match d with
  | [] => []
  | (k', v) :: r =>
      if str_eqb k' k then (k', v ++ [x]) :: r else (k', v) :: dict_append r k x
  end.

(** ** Outcomes and events *)

Inductive exn :=
| Exception (msg : pystr)
| ValueError
| IndexError
| FileNotFoundError
| OSError.

Inductive outcome (A : Type) :=
| Return (a : A)
| Raise (e : exn)
| Exit.
Arguments Return {A} a.
Arguments Raise {A} e.
Arguments Exit {A}.

Inductive event :=
| EvPrint (line : pystr)
| EvFzf (header : pystr) (stdin : pystr)
| EvInput (prompt : pystr)
| EvLoadModule (module_name : pystr)
| EvSearch (module_name : pystr) (query_type : DownloadTypeEnum.t) (query : pystr) (limit : Z)
| EvCustomUrlParse (module_name : pystr) (link : pystr)
| EvPrintHelp
| EvMakedirs (path : pystr)
| EvDownload (media_to_download : batch) (tpm : list (ModuleModes.t * option pystr))
             (sdm : pystr) (path : pystr).

(** A computation logs events and ends in an outcome. *)
Definition M (A : Type) : Type := list event * outcome A.

Definition ret {A} (a : A) : M A := ([], Return a).
Definition raise {A} (e : exn) : M A := ([], Raise e).
Definition exit {A} : M A := ([], Exit).
Definition emit (e : event) : M unit := ([e], Return tt).
Definition print (line : pystr) : M unit := emit (EvPrint line).
Definition lift {A} (o : outcome A) : M A := ([], o).

Definition bind {A B} (m : M A) (k : A -> M B) : M B :=
  match m with
  | (log, Return a) => let (log', o) := k a in (log ++ log', o)
  | (log, Raise e) => (log, Raise e)
  | (log, Exit) => (log, Exit)
  end.

Notation "x <- m ;; k" := (bind m (fun x => k))
  (at level 61, m at next level, right associativity).
Notation "m ;; k" := (bind m (fun _ => k))
  (at level 61, right associativity).

Definition trace {A} (m : M A) : list event := fst m.
Definition result {A} (m : M A) : outcome A := snd m.

(** [l[i]] with Python's negative indices. *)
Definition py_index {A} (l : list A) (i : Z) : outcome A :=
  let n := Z.of_nat (length l) in
  let j := if i <? 0 then n + i else i in
  if (0 <=? j) && (j <? n) then
    match nth_error l (Z.to_nat j) with
    | Some x => Return x
    | None => Raise IndexError
    end
  else Raise IndexError.

(** ** Collaborators *)

Record ParseResult := { netloc : pystr; path : pystr }.

(** Functions the file imports and whose code is not part of it.

    [str.lower], [str.isdigit] and [int] consult the Unicode character
    database for code points outside ASCII: [uni_lower before c after] is
    the lowercase form of such a code point [c] (possibly several code
    points) where it stands between the texts [before] and [after], as
    the mapping may depend on the neighbours (final sigma);
    [uni_isdigit] tells whether [isdigit] accepts it and [uni_decimal]
    gives its value when [int] accepts it.
    [urlparse] is [urllib.parse.urlparse], of which the network location
    and the path are used; [re_findall] is [re.findall];
    [beauty_format_seconds] comes from [orpheus.music_downloader]. *)
Class Imports := {
  uni_lower : pystr -> char -> pystr -> pystr;
  uni_isdigit : char -> bool;
  uni_decimal : char -> option Z;
  urlparse : pystr -> ParseResult;
  re_findall : pystr -> pystr -> list pystr;
  beauty_format_seconds : Z -> pystr
}.

(** What [orpheus.load_module(name)] returns.  [custom_url_parse] may
    raise. *)
Record ModuleInterface := {
  search : DownloadTypeEnum.t -> pystr -> Z -> list SearchResult;
  custom_url_parse : pystr -> outcome MediaIdentification
}.

(** An entry of [orpheus.module_settings]. *)
Record ModuleInformation := {
  url_decoding : ManualEnum.t;
  url_constants : option (list (pystr * DownloadTypeEnum.t));
  flags_hidden : bool
}.

Record Settings := {
  search_limit : Z;
  download_path : pystr;
  module_defaults : ModuleModes.t -> pystr
}.

(** The [Orpheus] instance, as far as [main] reads it. *)
Record Orpheus := {
  module_list : list pystr;
  module_netloc_constants : list (pystr * pystr);
  module_settings : pystr -> ModuleInformation;
  settings : Settings;
  load_module : pystr -> ModuleInterface
}.

(** The terminal and the file system.  [fzf_communicate header stdin] is
    the run of the picker: [None] when starting it, talking to it or
    decoding its output raises, otherwise its return code and its
    decoded standard output.  [makedirs path] is what creating the
    directory [path], when the path is not empty, comes to. *)
Record World := {
  which_fzf : bool;
  fzf_communicate : pystr -> pystr -> option (Z * pystr);
  input : pystr -> pystr;
  file_lines : pystr -> option (list pystr);
  makedirs : pystr -> outcome unit
}.

Record Args := {
  arguments : list pystr;
  output : option pystr;
  arg_lyrics : pystr;
  arg_covers : pystr;
  arg_credits : pystr;
  separatedownload : pystr
}.

Section Definitions.
Context {imports : Imports}.

(** ** Builtins on strings that depend on the character tables *)

Definition is_ascii (c : char) : bool := (c <? 128)%N.
Definition ascii_digit (c : char) : bool := ((48 <=? c) && (c <=? 57))%N.

Definition lower_char (before : pystr) (c : char) (after : pystr) : pystr :=
  if is_ascii c then [if ((65 <=? c) && (c <=? 90))%N then (c + 32)%N else c]
  else uni_lower before c after.

(** The lowercase form of [s], which follows the text [before]. *)
Fixpoint lower_from (before s : pystr) : pystr :=
  match s with
  | [] => []
  | c :: r => lower_char before c r ++ lower_from (before ++ [c]) r
  end.

Definition lower (s : pystr) : pystr := lower_from [] s.

Definition isdigit_char (c : char) : bool :=
  if is_ascii c then ascii_digit c else uni_isdigit c.

Definition isdigit (s : pystr) : bool :=
  match s with
  | [] => false
  | _ => forallb isdigit_char s
  end.

Definition decimal_value (c : char) : option Z :=
  if is_ascii c then (if ascii_digit c then Some (Z.of_N c - 48) else None)
  else uni_decimal c.

Fixpoint int_acc (s : pystr) (acc : Z) : option Z :=
  match s with
  | [] => Some acc
  | c :: r =>
      match decimal_value c with
      | Some d => int_acc r (10 * acc + d)
      | None => None
      end
  end.

(** [int(s)] for a string that passed [isdigit()]: such a string has no
    sign, blank or underscore, and [int] raises ValueError ([None]) when
    one of its characters is a digit without a decimal value.  The
    interpreter may also refuse a string of more digits than a
    configurable limit, which is never lower than 640; the limit is left
    out, so that the definition stands for [int] on strings of at most
    640 digits. *)
Definition int (s : pystr) : option Z :=
  match s with
  | [] => None
  | _ => int_acc s 0
  end.

(** ** [interactive_selection] *)

(** *** 1. Configuration *)

Inductive LayoutMode := simple | detailed.

Definition layout_mode (query_type : DownloadTypeEnum.t) : LayoutMode :=
  match query_type with
  | DownloadTypeEnum.artist => simple
  | DownloadTypeEnum.album => detailed
  | DownloadTypeEnum.playlist => detailed
  | _ => detailed
  end.

Definition main_label (query_type : DownloadTypeEnum.t) : pystr :=
  match query_type with
  | DownloadTypeEnum.artist => lit "ARTIST"
  | DownloadTypeEnum.album => lit "ALBUM"
  | DownloadTypeEnum.playlist => lit "PLAYLIST"
  | _ => lit "TRACK"
  end.

(** *** 2. Table data *)

Definition header (query_type : DownloadTypeEnum.t) : pystr :=
  match layout_mode query_type with
  | detailed =>
      ljust 3 (lit "#") ++ [SPACE] ++ ljust 40 (main_label query_type) ++ [SPACE]
      ++ ljust 6 (lit "YEAR") ++ [SPACE] ++ ljust 8 (lit "LENGTH") ++ [SPACE]
      ++ ljust 3 (lit "[E]") ++ [SPACE] ++ lit "QUAL"
  | simple => ljust 3 (lit "#") ++ [SPACE] ++ main_label query_type
  end.

(** Truth value of an optional integer: [None] and [0] are false. *)
Definition truthy_int (x : option Z) : bool :=
  match x with
  | Some z => negb (z =? 0)
  | None => false
  end.

(** Truth value of an optional list: [None] and [[]] are false. *)
Definition truthy_list {A} (x : option (list A)) : bool :=
  match x with
  | Some (_ :: _) => true
  | _ => false
  end.

Definition trunc_name (item : SearchResult) : pystr :=
  if (38 <? length (name item))%nat then firstn 37 (name item) ++ [ELLIPSIS]
  else name item.

(** The local variable [year]. *)
Definition year_str (item : SearchResult) : pystr :=
  match year item with
  | Some y => if truthy_int (year item) then str_int y else lit "----"
  | None => lit "----"
  end.

Definition full_dur (item : SearchResult) : pystr :=
  match duration item with
  | Some d => if truthy_int (duration item) then beauty_format_seconds d else lit "--:--"
  | None => lit "--:--"
  end.

Definition short_dur (item : SearchResult) : pystr :=
  if char_in 104%N (full_dur item) then
    match split COLON (full_dur item) with
    | p0 :: p1 :: _ => p0 ++ [COLON] ++ p1
    | _ => full_dur item
    end
  else full_dur item.

Definition expl (item : SearchResult) : pystr :=
  if explicit item then lit "E" else lit " ".

Definition full_qual (item : SearchResult) : pystr :=
  match additional item with
  | Some (q :: _) => q
  | _ => lit "----"
  end.

Definition short_qual (item : SearchResult) : pystr :=
  if contains (lit "Dolby Atmos") (full_qual item) then lit "DA"
  else if contains (lit "Master") (full_qual item) then lit "Mast"
  else if contains (lit "HiFi") (full_qual item) then lit "HiFi"
  else firstn 6 (full_qual item).

Definition visible (query_type : DownloadTypeEnum.t) (index : Z) (item : SearchResult)
  : pystr :=
  match layout_mode query_type with
  | detailed =>
      ljust 4 (str_int index ++ lit ".") ++ [SPACE] ++ ljust 40 (trunc_name item)
      ++ [SPACE] ++ ljust 6 (year_str item) ++ [SPACE] ++ ljust 8 (short_dur item)
      ++ [SPACE] ++ ljust 3 (expl item) ++ [SPACE] ++ short_qual item
  | simple => ljust 4 (str_int index ++ lit ".") ++ [SPACE] ++ name item
  end.

Definition full_artist (item : SearchResult) : pystr :=
  match artists item with
  | ArtistList names => join (lit ", ") names
  | ArtistStr s => s
  | ArtistNone => lit "None"
  end.

Definition is_expl_str (item : SearchResult) : pystr :=
  if explicit item then lit "1" else lit "0".

Definition h_year (item : SearchResult) : pystr :=
  if truthy_int (year item) then year_str item else [].

Definition h_dur (item : SearchResult) : pystr :=
  if truthy_int (duration item) then full_dur item else [].

Definition h_qual (item : SearchResult) : pystr :=
  if truthy_list (additional item) then full_qual item else [].

Definition hidden (item : SearchResult) : pystr :=
  name item ++ [PIPE] ++ full_artist item ++ [PIPE] ++ h_year item ++ [PIPE]
  ++ h_dur item ++ [PIPE] ++ h_qual item ++ [PIPE] ++ is_expl_str item.

(** One turn of the loop over [enumerate(items, start=1)]. *)
Definition choice (query_type : DownloadTypeEnum.t) (index : Z) (item : SearchResult)
  : pystr :=
  visible query_type index item ++ [TAB] ++ hidden item.

Fixpoint choices_from (query_type : DownloadTypeEnum.t) (index : Z)
    (items : list SearchResult) : list pystr :=
  match items with
  | [] => []
  | item :: rest => choice query_type index item :: choices_from query_type (index + 1) rest
  end.

Definition choices (query_type : DownloadTypeEnum.t) (items : list SearchResult)
  : list pystr :=
  choices_from query_type 1 items.

(** *** 3. The picker *)

Definition nonempty {A} (l : list A) : bool :=
  match l with [] => false | _ => true end.

Definition run_fzf (w : World) (hdr : pystr) (rows : list pystr) : M (option pystr) :=
  if which_fzf w then
    emit (EvFzf hdr (join [NEWLINE] rows)) ;;
    match fzf_communicate w hdr (join [NEWLINE] rows) with
    | Some (returncode, stdout) =>
        if (returncode =? 0) && nonempty stdout then
          let result := strip stdout in
          if nonempty result then ret (Some (hd [] (split DOT result)))
          else ret None
        else ret None
    | None => ret None
    end
  else ret None.

(** *** 4. Fallback *)

Fixpoint print_all (lines : list pystr) : M unit :=
  match lines with
  | [] => ret tt
  | l :: rest => print l ;; print_all rest
  end.

Definition fallback (w : World) (hdr : pystr) (rows : list pystr) : M pystr :=
  print hdr ;;
  print_all (map (fun c => hd [] (split TAB c)) rows) ;;
  emit (EvInput (lit "Selection: ")) ;;
  ret (input w (lit "Selection: ")).

(** *** 5. Result *)

Definition quit_aliases : list pystr :=
  [lit "e"; lit "q"; lit "x"; lit "exit"; lit "quit"].

Definition process_result {A} (selection_input : pystr) (items : list A) : outcome Z :=
  if str_in (lower selection_input) quit_aliases then Exit
  else if negb (isdigit selection_input) then Raise (Exception (lit "Input a number"))
  else
    match int selection_input with
    | None => Raise ValueError
    | Some n =>
        let selection := n - 1 in
        if (selection <? 0) || (selection >=? Z.of_nat (length items))
        then Raise (Exception (lit "Invalid selection"))
        else Return selection
    end.

Definition interactive_selection (w : World) (items : list SearchResult)
    (query_type : DownloadTypeEnum.t) : M Z :=
  let hdr := header query_type in
  let rows := choices query_type items in
  picked <- run_fzf w hdr rows ;;
  selection_input <-
    match picked with
    | Some (c :: s) => ret (c :: s)
    | _ => fallback w hdr rows
    end ;;
  lift (process_result selection_input items).

(** ** [main]: resolving the requests *)

Definition media_types : pystr :=
  join (lit "/") (map DownloadTypeEnum.name DownloadTypeEnum.all).

Definition quoted (s : pystr) : pystr := [QUOTE] ++ s ++ [QUOTE].

Definition unknown_module (orpheus : Orpheus) (modulename : pystr) : exn :=
  let modules :=
    filter (fun i => negb (flags_hidden (module_settings orpheus i))) (module_list orpheus) in
  Exception (lit "Unknown module name " ++ quoted modulename
             ++ lit ". Must select from: " ++ join (lit ", ") modules).

(** *** Search: from the search call to the batch of one identification *)

Definition search_and_select (orpheus : Orpheus) (w : World) (lucky_mode : bool)
    (modulename : pystr) (query_type : DownloadTypeEnum.t) (query : pystr) : M batch :=
  emit (EvLoadModule modulename) ;;
  let module := load_module orpheus modulename in
  let limit := if lucky_mode then 1 else search_limit (settings orpheus) in
  emit (EvSearch modulename query_type query limit) ;;
  let items := search module query_type query limit in
  if (length items =? 0)%nat then
    raise (Exception (lit "No search results for " ++ DownloadTypeEnum.name query_type
                      ++ lit ": " ++ query))
  else
    selection <-
      (if lucky_mode then ret 0
       else (sel <- interactive_selection w items query_type ;; print [] ;; ret sel)) ;;
    selected_item <- lift (py_index items selection) ;;
    ret [(modulename,
          [{| media_type := query_type;
              media_id := result_id selected_item;
              mi_extra_kwargs := Some (extra_kwargs selected_item) |}])].

(** The result is [None] where [main] returns without downloading. *)
Definition search_mode (orpheus : Orpheus) (w : World) (orpheus_mode : pystr)
    (args : list pystr) : M (option batch) :=
  if (3 <? length args)%nat then
    let modulename := lower (nth 1 args []) in
    if str_in modulename (module_list orpheus) then
      match DownloadTypeEnum.of_name (lower (nth 2 args [])) with
      | None =>
          raise (Exception (lower (nth 2 args [])
                            ++ lit " is not a valid search type! Choose " ++ media_types))
      | Some query_type =>
          let lucky_mode := str_eqb orpheus_mode (lit "luckysearch") in
          let query := join (lit " ") (skipn 3 args) in
          b <- search_and_select orpheus w lucky_mode modulename query_type query ;;
          ret (Some b)
      end
    else if str_eqb modulename (lit "multi") then ret None
    else raise (unknown_module orpheus modulename)
  else
    print (lit "Search must be done as orpheus.py [search/luckysearch] [module] ["
           ++ media_types ++ lit "] [query]") ;;
    exit.

(** *** Direct identifiers *)

Definition download_mode (orpheus : Orpheus) (args : list pystr) : M batch :=
  if (3 <? length args)%nat then
    let modulename := lower (nth 1 args []) in
    if str_in modulename (module_list orpheus) then
      match DownloadTypeEnum.of_name (lower (nth 2 args [])) with
      | None =>
          raise (Exception (lower (nth 2 args [])
                            ++ lit " is not a valid download type! Choose " ++ media_types))
      | Some mt =>
          ret [(modulename,
                map (fun i => {| media_type := mt; media_id := i; mi_extra_kwargs := None |})
                    (skipn 3 args))]
      end
    else raise (unknown_module orpheus modulename)
  else
    print (lit "Download must be done as orpheus.py [download] [module] ["
           ++ media_types ++ lit "] [media ID 1] [media ID 2] ...") ;;
    exit.

(** *** URLs *)

(** The loop over [orpheus.module_netloc_constants]: [i] runs over the
    patterns and [orpheus.module_netloc_constants[i]] is the module
    entered with [i]. *)
Definition locate_service (orpheus : Orpheus) (host : pystr) : option pystr :=
  fold_left
    (fun service_name entry =>
       if nonempty (re_findall (fst entry) host) then Some (snd entry) else service_name)
    (module_netloc_constants orpheus) None.

Definition default_url_constants : list (pystr * DownloadTypeEnum.t) :=
  [(lit "track", DownloadTypeEnum.track);
   (lit "album", DownloadTypeEnum.album);
   (lit "playlist", DownloadTypeEnum.playlist);
   (lit "artist", DownloadTypeEnum.artist)].

(** [url_constants] after the test [if not url_constants]. *)
Definition effective_url_constants (info : ModuleInformation)
  : list (pystr * DownloadTypeEnum.t) :=
  match url_constants info with
  | Some (e :: r) => e :: r
  | _ => default_url_constants
  end.

Definition type_matches (rules : list (pystr * DownloadTypeEnum.t))
    (components : list pystr) : list DownloadTypeEnum.t :=
  map snd (filter (fun rule => str_in (fst rule) components) rules).

(** Automatic resolution of the media type and identifier, once the path
    has passed the length check. *)
Definition resolve_type (orpheus : Orpheus) (service_name link : pystr)
    (components : list pystr) (media_to_download : batch) : M batch :=
  let rules := effective_url_constants (module_settings orpheus service_name) in
  match type_matches rules components with
  | [] =>
      print (lit "Invalid URL: " ++ quoted link) ;;
      exit
  | m :: ms =>
      ret (dict_append media_to_download service_name
             {| media_type := last (m :: ms) m;
                media_id := last components [];
                mi_extra_kwargs := None |})
  end.

(** The automatic branch, after the module is known. *)
Definition route_automatic (orpheus : Orpheus) (service_name link : pystr)
    (components : list pystr) (media_to_download : batch) : M batch :=
  if (length components <=? 2)%nat then
    print ([TAB] ++ lit "Invalid URL: " ++ quoted link) ;;
    exit
  else resolve_type orpheus service_name link components media_to_download.

(** The manual branch: the module parses the link itself. *)
Definition route_manual (orpheus : Orpheus) (service_name link : pystr)
    (media_to_download : batch) : M batch :=
  emit (EvLoadModule service_name) ;;
  let module := load_module orpheus service_name in
  emit (EvCustomUrlParse service_name link) ;;
  parsed <- lift (custom_url_parse module link) ;;
  ret (dict_append media_to_download service_name parsed).

(** [if k not in d: d[k] = []] *)
Definition ensure_key (d : batch) (k : pystr) : batch :=
  if dict_mem d k then d else dict_set d k [].

(** The body of the loop over the links, once the module is known. *)
Definition route (orpheus : Orpheus) (service_name link : pystr)
    (components : list pystr) (media_to_download : batch) : M batch :=
  let media_to_download := ensure_key media_to_download service_name in
  match url_decoding (module_settings orpheus service_name) with
  | ManualEnum.manual => route_manual orpheus service_name link media_to_download
  | _ => route_automatic orpheus service_name link components media_to_download
  end.

Definition not_found (host : pystr) : exn :=
  Exception (lit "URL location " ++ quoted host ++ lit " is not found in modules!").

(** The body of the loop over the links. *)
Definition process_link (orpheus : Orpheus) (media_to_download : batch) (link : pystr)
  : M batch :=
  if startswith link (lit "http") then
    let url := urlparse link in
    let components := split SLASH (path url) in
    match locate_service orpheus (netloc url) with
    | Some (c :: s) => route orpheus (c :: s) link components media_to_download
    | _ => raise (not_found (netloc url))
    end
  else raise (Exception (lit "Invalid argument: " ++ quoted link)).

Fixpoint process_links (orpheus : Orpheus) (media_to_download : batch)
    (links : list pystr) : M batch :=
  match links with
  | [] => ret media_to_download
  | link :: rest =>
      media_to_download <- process_link orpheus media_to_download link ;;
      process_links orpheus media_to_download rest
  end.

(** A single argument naming an existing file stands for its lines. *)
Definition links_of (w : World) (args : list pystr) : list pystr :=
  match args with
  | [a] => match file_lines w a with Some lines => lines | None => args end
  | _ => args
  end.

Definition url_mode (orpheus : Orpheus) (w : World) (args : list pystr) : M batch :=
  process_links orpheus [] (links_of w args).

(** *** Handing the batch to the download pipeline *)

Definition getattr (args : Args) (i : ModuleModes.t) : pystr :=
  match i with
  | ModuleModes.covers => arg_covers args
  | ModuleModes.lyrics => arg_lyrics args
  | ModuleModes.credits => arg_credits args
  end.

Definition moduleselected (orpheus : Orpheus) (args : Args) (i : ModuleModes.t)
  : option pystr :=
  let selected := lower (getattr args i) in
  let selected :=
    if str_eqb selected (lit "default") then module_defaults (settings orpheus) i
    else selected in
  if str_eqb selected (lit "default") then None else Some selected.

Definition tpm (orpheus : Orpheus) (args : Args) : list (ModuleModes.t * option pystr) :=
  map (fun i => (i, moduleselected orpheus args i))
      [ModuleModes.covers; ModuleModes.lyrics; ModuleModes.credits].

Definition hand_off (orpheus : Orpheus) (args : Args) (path : pystr)
    (media_to_download : batch) : M unit :=
  let sdm := lower (separatedownload args) in
  (if nonempty media_to_download then ret tt else print (lit "No links given")) ;;
  emit (EvDownload media_to_download (tpm orpheus args) sdm path).

(** The last branch of [main], from the dispatch on [orpheus_mode] to the
    call of [orpheus_core_download]. *)
Definition resolve_and_download (orpheus : Orpheus) (w : World) (args : Args)
    (orpheus_mode path : pystr) : M unit :=
  resolved <-
    (if str_eqb orpheus_mode (lit "search") || str_eqb orpheus_mode (lit "luckysearch")
     then search_mode orpheus w orpheus_mode (arguments args)
     else if str_eqb orpheus_mode (lit "download")
     then (b <- download_mode orpheus (arguments args) ;; ret (Some b))
     else (b <- url_mode orpheus w (arguments args) ;; ret (Some b))) ;;
  match resolved with
  | Some media_to_download => hand_off orpheus args path media_to_download
  | None => ret tt
  end.

(** *** The other modes: every path returns or raises *)

Definition settings_mode (orpheus : Orpheus) (args : list pystr) : M unit :=
  a1 <- lift (py_index args 1) ;;
  let setting := lower a1 in
  if str_eqb setting (lit "refresh") then
    print (lit "settings.json has been refreshed successfully.")
  else if str_in setting
            [lit "core_update"; lit "full_update"; lit "module_install"; lit "test_modules"]
  then ret tt
  else if str_in setting (module_list orpheus) then
    emit (EvLoadModule setting) ;;
    a2 <- lift (py_index args 2) ;;
    let modulesetting := lower a2 in
    if str_in modulesetting [lit "update"; lit "setup"; lit "adjust_setting"; lit "test"]
    then ret tt
    else raise (Exception (lit "Unknown setting " ++ quoted modulesetting
                           ++ lit " for module " ++ quoted setting))
  else raise (Exception (lit "Unknown setting: " ++ quoted setting)).

Definition sessions_mode (orpheus : Orpheus) (args : list pystr) : M unit :=
  a1 <- lift (py_index args 1) ;;
  let module := lower a1 in
  if str_in module (module_list orpheus) then
    a2 <- lift (py_index args 2) ;;
    let option := lower a2 in
    if str_in option [lit "add"; lit "delete"; lit "list"] then ret tt
    else if str_eqb option (lit "test") then
      _ <- lift (py_index args 3) ;; ret tt
    else raise (Exception (lit "Unknown option " ++ option
                           ++ lit ", choose add/delete/list/test"))
  else raise (Exception (lit "Unknown module " ++ module)).

(** *** [main], after the arguments are parsed and [Orpheus] is built *)

(** [os.makedirs(path, exist_ok=True)]: an empty path cannot be
    created; for any other path the file system decides. *)
Definition os_makedirs (w : World) (path : pystr) : outcome unit :=
  match path with
  | [] => Raise FileNotFoundError
  | _ => makedirs w path
  end.

Definition main (orpheus : Orpheus) (w : World) (args : Args) : M unit :=
  match arguments args with
  | [] => emit EvPrintHelp ;; exit
  | a0 :: _ =>
      let orpheus_mode := lower a0 in
      if str_eqb orpheus_mode (lit "settings") then settings_mode orpheus (arguments args)
      else if str_eqb orpheus_mode (lit "sessions") then sessions_mode orpheus (arguments args)
      else
        let path :=
          match output args with
          | Some (c :: s) => c :: s
          | _ => download_path (settings orpheus)
          end in
        final <- lift (py_index path (-1)) ;;
        let path := if (final =? SLASH)%N then removelast path else path in
        emit (EvMakedirs path) ;;
        lift (os_makedirs w path) ;;
        resolve_and_download orpheus w args orpheus_mode path
  end.

End Definitions.

(** ** Vocabulary of the statements *)

Section Vocabulary.
Context {imports : Imports}.

(** The tab separates the halves of a row, the pipe the fields of the
    hidden payload. *)
Definition separator (c : char) : Prop := c = TAB \/ c = PIPE.

(** None of the texts that make up a row contains the character [c]. *)
Definition free_of (c : char) (item : SearchResult) : Prop :=
  ~ In c (name item) /\ ~ In c (full_artist item)
  /\ ~ In c (full_dur item) /\ ~ In c (full_qual item).

(** None of the texts that make up a row contains a separator. *)
Definition well_separated (item : SearchResult) : Prop :=
  forall c, separator c ->
    ~ In c (name item) /\ ~ In c (full_artist item)
    /\ ~ In c (full_dur item) /\ ~ In c (full_qual item).

(** The same search result with another year and duration. *)
Definition with_year_duration (item : SearchResult) (y d : option Z) : SearchResult := {|
  result_id := result_id item;
  name := name item;
  artists := artists item;
  year := y;
  duration := d;
  explicit := explicit item;
  additional := additional item;
  extra_kwargs := extra_kwargs item
|}.

(** What the router yields for one link taken alone. *)
Definition resolved (orpheus : Orpheus) (link : pystr)
  : option (pystr * MediaIdentification) :=
  match result (process_link orpheus [] link) with
  | Return [(service_name, [identification])] => Some (service_name, identification)
  | _ => None
  end.

(** The identifications of the links routed to one module, in the order
    of the links. *)
Definition identifications_for (orpheus : Orpheus) (service_name : pystr)
    (links : list pystr) : list MediaIdentification :=
  flat_map
    (fun link =>
       match resolved orpheus link with
       | Some (s, identification) => if str_eqb s service_name then [identification] else []
       | None => []
       end)
    links.

(** Running the picker and prompting for a selection. *)
Definition selection_event (e : event) : bool :=
  match e with
  | EvFzf _ _ | EvInput _ => true
  | _ => false
  end.

Definition search_limit_is (limit : Z) (e : event) : bool :=
  match e with
  | EvSearch _ _ _ l => l =? limit
  | _ => true
  end.

(** The visible halves of the rows, numbered from [index]. *)
Fixpoint visible_from (query_type : DownloadTypeEnum.t) (index : Z)
    (items : list SearchResult) : list pystr :=
  match items with
  | [] => []
  | item :: rest => visible query_type index item :: visible_from query_type (index + 1) rest
  end.

(** The hand-over to the download pipeline. *)
Definition is_download (e : event) : bool :=
  match e with
  | EvDownload _ _ _ _ => true
  | _ => false
  end.

(** Events that reach outside the terminal: loading or calling a module,
    creating the download directory, downloading. *)
Definition is_outward (e : event) : bool :=
  match e with
  | EvLoadModule _ | EvSearch _ _ _ _ | EvCustomUrlParse _ _ | EvMakedirs _
  | EvDownload _ _ _ _ => true
  | _ => false
  end.

(** No event of the computation satisfies [p]. *)
Definition avoids {A} (p : event -> bool) (m : M A) : Prop :=
  forallb (fun e => negb (p e)) (trace m) = true.

(** The download path [main] settles on before its last character is
    looked at. *)
Definition chosen_path (orpheus : Orpheus) (args : Args) : pystr :=
  match output args with
  | Some (c :: s) => c :: s
  | _ => download_path (settings orpheus)
  end.

End Vocabulary.

(** ** A sample installation

    One module with automatic URL decoding and the default rules, one
    with manual decoding, and simple stand-ins for the imported
    functions. *)

Fixpoint after_scheme (s : pystr) : pystr :=
  match s with
  | 58%N :: 47%N :: 47%N :: r => r
  | _ :: r => after_scheme r
  | [] => []
  end.

Definition sample_urlparse (link : pystr) : ParseResult :=
  match split SLASH (after_scheme link) with
  | host :: (p :: ps) => {| netloc := host; path := SLASH :: join [SLASH] (p :: ps) |}
  | host :: [] => {| netloc := host; path := [] |}
  | [] => {| netloc := []; path := [] |}
  end.

(** A pattern made of literal characters and escaped dots. *)
Definition sample_findall (pattern s : pystr) : list pystr :=
  let literal := filter (fun c => negb (c =? 92)%N) pattern in
  if contains literal s then [literal] else [].

Definition two_digits (n : Z) : pystr :=
  if n <? 10 then lit "0" ++ digits n else digits n.

Definition sample_format_seconds (seconds : Z) : pystr :=
  let h := (seconds / 3600) mod 24 in
  (if 0 <? h then two_digits h ++ lit "h:" else [])
  ++ two_digits ((seconds / 60) mod 60) ++ lit "m:" ++ two_digits (seconds mod 60) ++ lit "s".

Definition sample_imports : Imports := {|
  uni_lower := fun _ c _ => [c];
  uni_isdigit := fun _ => false;
  uni_decimal := fun _ => None;
  urlparse := sample_urlparse;
  re_findall := sample_findall;
  beauty_format_seconds := sample_format_seconds
|}.

(** The same with the superscript digits of Latin-1, which [isdigit]
    accepts and [int] cannot read. *)
Definition sample_unicode_imports : Imports := {|
  uni_lower := fun _ c _ => [c];
  uni_isdigit := fun c => ((c =? 178) || (c =? 179) || (c =? 185))%N;
  uni_decimal := fun _ => None;
  urlparse := sample_urlparse;
  re_findall := sample_findall;
  beauty_format_seconds := sample_format_seconds
|}.

Definition sample_item (id title : string) (y d : Z) : SearchResult := {|
  result_id := lit id;
  name := lit title;
  artists := ArtistList [lit "First"; lit "Second"];
  year := Some y;
  duration := Some d;
  explicit := true;
  additional := Some [lit "HiFi Plus"];
  extra_kwargs := []
|}.

Definition sample_zero_item : SearchResult := sample_item "t3" "Three" 0 0.

Definition sample_items : list SearchResult :=
  [sample_item "t1" "One" 1999 205; sample_item "t2" "Two" 2005 3661; sample_zero_item].

(** A title of 47 characters. *)
Definition sample_long_item : SearchResult :=
  sample_item "t4" "An Exceedingly Long Title For A Short Recording" 2011 61.

(** A title with a pipe in it. *)
Definition sample_pipe_item : SearchResult := sample_item "t5" "A|B" 2011 61.

(** A quality label that is none of the known ones. *)
Definition sample_lossless_item : SearchResult := {|
  result_id := lit "t7";
  name := lit "Seven";
  artists := ArtistStr (lit "Solo");
  year := None;
  duration := None;
  explicit := false;
  additional := Some [lit "Lossless 24-bit"];
  extra_kwargs := []
|}.

(** A title with a tab in it. *)
Definition sample_tab_item : SearchResult := {|
  result_id := lit "t6";
  name := lit "A" ++ [TAB] ++ lit "B";
  artists := ArtistList [lit "First"; lit "Second"];
  year := Some 2011;
  duration := Some 61;
  explicit := true;
  additional := Some [lit "HiFi Plus"];
  extra_kwargs := []
|}.

Definition sample_manual_id : MediaIdentification :=
  {| media_type := DownloadTypeEnum.playlist; media_id := lit "parsed";
     mi_extra_kwargs := None |}.

(** The search finds nothing for the query "nothing". *)
Definition sample_module : ModuleInterface := {|
  search := fun _ query limit =>
    if str_eqb query (lit "nothing") then [] else firstn (Z.to_nat limit) sample_items;
  custom_url_parse := fun _ => Return sample_manual_id
|}.

Definition sample_orpheus : Orpheus := {|
  module_list := [lit "legacy"; lit "deezer"; lit "custom"];
  module_netloc_constants :=
    [(lit "deezer", lit "legacy"); (lit "deezer\.com", lit "deezer");
     (lit "custom\.org", lit "custom")];
  module_settings := fun m =>
    if str_eqb m (lit "custom")
    then {| url_decoding := ManualEnum.manual; url_constants := None; flags_hidden := false |}
    else {| url_decoding := ManualEnum.automatic; url_constants := None; flags_hidden := false |};
  settings := {| search_limit := 10; download_path := lit "./downloads/";
                 module_defaults := fun _ => lit "default" |};
  load_module := fun _ => sample_module
|}.

(** No picker installed; the user types 2. *)
Definition sample_world : World := {|
  which_fzf := false;
  fzf_communicate := fun _ _ => None;
  input := fun _ => lit "2";
  file_lines := fun f => if str_eqb f (lit "empty.txt") then Some [] else None;
  makedirs := fun _ => Return tt
|}.

(** A picker that returns the second row it was given. *)
Definition sample_picker_world : World := {|
  which_fzf := true;
  fzf_communicate := fun _ stdin => Some (0, nth 1 (split NEWLINE stdin) [] ++ [NEWLINE]);
  input := fun _ => lit "1";
  file_lines := fun _ => None;
  makedirs := fun _ => Return tt
|}.

(** A picker that was left with the escape key. *)
Definition sample_cancelled_world : World := {|
  which_fzf := true;
  fzf_communicate := fun _ _ => Some (130, []);
  input := fun _ => lit "3";
  file_lines := fun _ => None;
  makedirs := fun _ => Return tt
|}.

Definition sample_album_link : pystr := lit "https://www.deezer.com/album/12345".
Definition sample_short_link : pystr := lit "https://deezer.com/xyz".
Definition sample_short_manual_link : pystr := lit "https://custom.org/x".

Definition sample_links : list pystr :=
  [sample_album_link; sample_short_manual_link; lit "https://www.deezer.com/track/2";
   lit "https://deezer.com/playlist/3"].

Definition sample_args (l : list pystr) : Args := {|
  arguments := l;
  output := None;
  arg_lyrics := lit "default";
  arg_covers := lit "default";
  arg_credits := lit "default";
  separatedownload := lit "default"
|}.

(** The same command line with [-o /]. *)
Definition sample_root_args (l : list pystr) : Args := {|
  arguments := l;
  output := Some [SLASH];
  arg_lyrics := lit "default";
  arg_covers := lit "default";
  arg_credits := lit "default";
  separatedownload := lit "default"
|}.

(** * Properties *)

(** ** Strings *)

Lemma str_eqb_eq (a b : pystr) : str_eqb a b = true <-> a = b.
Proof.
  revert b; induction a as [|x a IH]; intros [|y b]; simpl; split; intro H;
    try reflexivity; try discriminate.
  - apply andb_true_iff in H as [Hx Hr]. apply N.eqb_eq in Hx. apply IH in Hr.
    now subst.
  - injection H as -> ->. rewrite N.eqb_refl. now apply IH.
Qed.

Lemma str_eqb_refl (a : pystr) : str_eqb a a = true.
Proof. now apply str_eqb_eq. Qed.

Lemma str_eqb_neq (a b : pystr) : str_eqb a b = false <-> a <> b.
Proof.
  split.
  - intros H E. apply str_eqb_eq in E. congruence.
  - intro H. destruct (str_eqb a b) eqn:E; [|reflexivity].
    apply str_eqb_eq in E. contradiction.
Qed.

Lemma str_in_In (x : pystr) (l : list pystr) : str_in x l = true <-> In x l.
Proof.
  unfold str_in. rewrite existsb_exists. split.
  - intros (y & Hy & E). apply str_eqb_eq in E. now subst.
  - intro H. exists x. split; [assumption | apply str_eqb_refl].
Qed.

Lemma str_in_not_In (x : pystr) (l : list pystr) : str_in x l = false <-> ~ In x l.
Proof.
  rewrite <- str_in_In. destruct (str_in x l); split; intro H; congruence.
Qed.

Lemma char_in_In (c : char) (s : pystr) : char_in c s = true <-> In c s.
Proof.
  unfold char_in. rewrite existsb_exists. split.
  - intros (y & Hy & E). apply N.eqb_eq in E. now subst.
  - intro H. exists c. split; [assumption | apply N.eqb_refl].
Qed.

(** ** Decimal rendering and parsing *)

Section Numbers.
Context {imports : Imports}.

Lemma digit_range (d : Z) : 0 <= d < 10 -> (48 <= digit_char d <= 57)%N.
Proof. unfold digit_char. lia. Qed.

Lemma digit_is_ascii_digit (d : Z) : 0 <= d < 10 -> ascii_digit (digit_char d) = true.
Proof.
  intro H. apply digit_range in H. unfold ascii_digit.
  apply andb_true_iff. split; apply N.leb_le; lia.
Qed.

Lemma ascii_digit_is_ascii (c : char) : ascii_digit c = true -> is_ascii c = true.
Proof.
  unfold ascii_digit, is_ascii. intro H. apply andb_true_iff in H as [_ H].
  apply N.leb_le in H. apply N.ltb_lt. lia.
Qed.

Lemma ascii_digit_isdigit (c : char) : ascii_digit c = true -> isdigit_char c = true.
Proof.
  intro H. unfold isdigit_char. now rewrite (ascii_digit_is_ascii c H).
Qed.

Lemma ascii_digit_lower (before : pystr) (c : char) (after : pystr) :
  ascii_digit c = true -> lower_char before c after = [c].
Proof.
  intro H. unfold lower_char. rewrite (ascii_digit_is_ascii c H).
  unfold ascii_digit in H. apply andb_true_iff in H as [_ H]. apply N.leb_le in H.
  replace (65 <=? c)%N with false; [reflexivity|].
  symmetry. apply N.leb_gt. lia.
Qed.

Lemma digit_decimal_value (d : Z) : 0 <= d < 10 -> decimal_value (digit_char d) = Some d.
Proof.
  intro H. unfold decimal_value.
  rewrite (ascii_digit_is_ascii _ (digit_is_ascii_digit d H)), (digit_is_ascii_digit d H).
  f_equal. unfold digit_char. lia.
Qed.

Lemma int_acc_snoc (s : pystr) (c : char) (acc : Z) :
  int_acc (s ++ [c]) acc =
  match int_acc s acc with
  | Some v => match decimal_value c with Some d => Some (10 * v + d) | None => None end
  | None => None
  end.
Proof.
  revert acc; induction s as [|x s IH]; intro acc; simpl.
  - destruct (decimal_value c); reflexivity.
  - destruct (decimal_value x); [apply IH | reflexivity].
Qed.

(** With enough fuel, the digits of [n] are ASCII digits that read back
    as [n]. *)
Lemma digits_of_spec (fuel : nat) (n : Z) :
  0 <= n < 2 ^ Z.of_nat (S fuel) ->
  digits_of (S fuel) n <> []
  /\ forallb ascii_digit (digits_of (S fuel) n) = true
  /\ int_acc (digits_of (S fuel) n) 0 = Some n.
Proof.
  revert n; induction fuel as [|fuel IH]; intros n Hn;
    change (digits_of (S ?f) n) with
      (if n <? 10 then [digit_char n]
       else digits_of f (n / 10) ++ [digit_char (n mod 10)]);
    destruct (n <? 10) eqn:Hlt.
  1, 3: apply Z.ltb_lt in Hlt; repeat split;
    [ discriminate
    | simpl; rewrite digit_is_ascii_digit by lia; reflexivity
    | simpl; rewrite digit_decimal_value by lia; f_equal; lia ].
  - apply Z.ltb_ge in Hlt. simpl in Hn. lia.
  - apply Z.ltb_ge in Hlt.
    assert (Hq : 0 <= n / 10 < 2 ^ Z.of_nat (S fuel)).
    { split; [apply Z.div_pos; lia|].
      apply Z.div_lt_upper_bound; [lia|].
      rewrite (Nat2Z.inj_succ (S fuel)), Z.pow_succ_r in Hn by lia. lia. }
    destruct (IH _ Hq) as (Hne & Hall & Hint).
    assert (Hm : 0 <= n mod 10 < 10) by (apply Z.mod_pos_bound; lia).
    repeat split.
    + intro E. apply app_eq_nil in E as [_ E]. discriminate.
    + rewrite forallb_app, Hall. simpl. now rewrite digit_is_ascii_digit.
    + rewrite int_acc_snoc, Hint, digit_decimal_value by assumption.
      f_equal. pose proof (Z.div_mod n 10). lia.
Qed.

Lemma digits_spec (n : Z) :
  0 <= n ->
  digits n <> [] /\ forallb ascii_digit (digits n) = true /\ int_acc (digits n) 0 = Some n.
Proof.
  intro Hn. unfold digits. apply digits_of_spec. split; [assumption|].
  rewrite Nat2Z.inj_succ, Z2Nat.id by apply Z.log2_nonneg.
  destruct (Z.eq_dec n 0) as [->|Hz]; [reflexivity|].
  apply Z.log2_spec. lia.
Qed.

Lemma str_int_nonneg (n : Z) : 0 <= n -> str_int n = digits n.
Proof. intro H. unfold str_int. destruct (n <? 0) eqn:E; [lia | reflexivity]. Qed.

Lemma isdigit_all (s : pystr) :
  s <> [] -> forallb ascii_digit s = true -> isdigit s = true.
Proof.
  intros Hne Hall. destruct s as [|c s]; [contradiction|].
  unfold isdigit. apply forallb_forall. intros x Hx.
  apply ascii_digit_isdigit. rewrite forallb_forall in Hall. now apply Hall.
Qed.

Lemma lower_all_digits (s : pystr) : forallb ascii_digit s = true -> lower s = s.
Proof.
  unfold lower. generalize (@nil char) as before.
  induction s as [|c s IH]; intros before H; [reflexivity|]. simpl in H.
  apply andb_true_iff in H as [Hc Hs]. cbn [lower_from].
  rewrite (ascii_digit_lower before c s Hc), (IH _ Hs). reflexivity.
Qed.

Lemma digits_not_alias (s : pystr) :
  forallb ascii_digit s = true -> str_in (lower s) quit_aliases = false.
Proof.
  intro H. rewrite (lower_all_digits s H). apply str_in_not_In. intro Hin.
  unfold quit_aliases in Hin. simpl in Hin.
  repeat (destruct Hin as [<-|Hin]; [discriminate H|]). contradiction.
Qed.

Lemma int_str_int (n : Z) : 0 <= n -> int (str_int n) = Some n.
Proof.
  intro Hn. rewrite (str_int_nonneg n Hn).
  destruct (digits_spec n Hn) as (Hne & _ & Hint).
  unfold int. destruct (digits n); [contradiction | exact Hint].
Qed.

Lemma str_int_chars (n : Z) (c : char) :
  In c (str_int n) -> c = MINUS \/ ascii_digit c = true.
Proof.
  unfold str_int. destruct (n <? 0) eqn:E.
  - apply Z.ltb_lt in E. intros [<-|Hin]; [now left | right].
    destruct (digits_spec (- n)) as (_ & Hall & _); [lia|].
    rewrite forallb_forall in Hall. now apply Hall.
  - apply Z.ltb_ge in E. intro Hin. right.
    destruct (digits_spec n E) as (_ & Hall & _).
    rewrite forallb_forall in Hall. now apply Hall.
Qed.

Lemma str_int_nonempty (n : Z) : str_int n <> [].
Proof.
  unfold str_int. destruct (n <? 0) eqn:E; [discriminate|].
  apply Z.ltb_ge in E. now destruct (digits_spec n E).
Qed.

End Numbers.

(** ** Selection validator *)

Section Selection.
Context {imports : Imports}.

Lemma geb_false (a b : Z) : a < b -> (a >=? b) = false.
Proof. intro H. rewrite Z.geb_leb. apply Z.leb_gt. assumption. Qed.

Lemma geb_true (a b : Z) : b <= a -> (a >=? b) = true.
Proof. intro H. rewrite Z.geb_leb. apply Z.leb_le. assumption. Qed.

Lemma process_result_number {A} (s : pystr) (n : Z) (items : list A) :
  str_in (lower s) quit_aliases = false -> isdigit s = true -> int s = Some n ->
  process_result s items =
  if (n - 1 <? 0) || (n - 1 >=? Z.of_nat (length items))
  then Raise (Exception (lit "Invalid selection")) else Return (n - 1).
Proof.
  intros Hq Hd Hi. unfold process_result. now rewrite Hq, Hd, Hi.
Qed.

Lemma process_result_str_int {A} (k : Z) (items : list A) :
  0 <= k ->
  process_result (str_int k) items =
  if (k - 1 <? 0) || (k - 1 >=? Z.of_nat (length items))
  then Raise (Exception (lit "Invalid selection")) else Return (k - 1).
Proof.
  intro Hk. destruct (digits_spec k Hk) as (Hne & Hall & _).
  apply process_result_number.
  - rewrite str_int_nonneg by assumption. now apply digits_not_alias.
  - rewrite str_int_nonneg by assumption. now apply isdigit_all.
  - now apply int_str_int.
Qed.

(** C1. Selection validator. For a list of N >= 1 candidates: the
    decimal strings of 1..N give the indices 0..N-1; "0", the decimal
    string of N+1 and every other numeric string (of at most 640 digits,
    below any limit the interpreter puts on the conversion) whose
    zero-based value lies outside 0 <= index < N raise "Invalid
    selection"; a string that [isdigit] refuses and that is not a quit
    alias raises "Input a number"; a string whose lowercase form is one
    of e, q, x, exit, quit makes the process exit, whatever else it is,
    since this test comes first. The code misses one case: a string that
    [isdigit] accepts but [int] cannot read is not a number, yet it
    passes the test of [isdigit] and the conversion raises ValueError
    instead of "Input a number"; the superscript two (U+00B2) is such a
    string. *)
Theorem selection_validator (A : Type) (items : list A) :
  let N := Z.of_nat (length items) in
  1 <= N ->
  (forall k, 1 <= k <= N -> process_result (str_int k) items = Return (k - 1))
  /\ process_result (lit "0") items = Raise (Exception (lit "Invalid selection"))
  /\ process_result (str_int (N + 1)) items = Raise (Exception (lit "Invalid selection"))
  /\ (forall s n,
        str_in (lower s) quit_aliases = false -> isdigit s = true -> int s = Some n ->
        (length s <= 640)%nat ->
        ~ (0 <= n - 1 < N) ->
        process_result s items = Raise (Exception (lit "Invalid selection")))
  /\ (forall s,
        str_in (lower s) quit_aliases = false -> isdigit s = false ->
        process_result s items = Raise (Exception (lit "Input a number")))
  /\ (forall s,
        str_in (lower s) quit_aliases = true -> process_result s items = Exit)
  /\ (forall s,
        str_in (lower s) quit_aliases = false -> isdigit s = true -> int s = None ->
        process_result s items = Raise ValueError)
  /\ (uni_isdigit 178%N = true -> uni_decimal 178%N = None ->
      str_in (lower [178%N]) quit_aliases = false ->
      isdigit [178%N] = true
      /\ int [178%N] = None
      /\ process_result [178%N] items = Raise ValueError
      /\ process_result [178%N] items <> Raise (Exception (lit "Input a number"))).
Proof.
  intros N HN. split; [|split; [|split; [|split; [|split; [|split; [|split]]]]]].
  - intros k Hk. rewrite process_result_str_int by lia.
    replace (k - 1 <? 0) with false by (symmetry; apply Z.ltb_ge; lia).
    rewrite geb_false by (fold N; lia). reflexivity.
  - change (lit "0") with (str_int 0). rewrite process_result_str_int by lia.
    reflexivity.
  - rewrite process_result_str_int by lia.
    rewrite geb_true by (fold N; lia). now rewrite orb_true_r.
  - intros s n Hq Hd Hi _ Hout. rewrite (process_result_number s n) by assumption.
    destruct (n - 1 <? 0) eqn:E1; [reflexivity|].
    destruct (n - 1 >=? Z.of_nat (length items)) eqn:E2; [reflexivity|].
    apply Z.ltb_ge in E1. rewrite Z.geb_leb in E2. apply Z.leb_gt in E2.
    exfalso. apply Hout. fold N in E2. lia.
  - intros s Hq Hd. unfold process_result. now rewrite Hq, Hd.
  - intros s Hq. unfold process_result. now rewrite Hq.
  - intros s Hq Hd Hi. unfold process_result. now rewrite Hq, Hd, Hi.
  - intros Hd Hv Hq.
    assert (Hisd : isdigit [178%N] = true)
      by (unfold isdigit, isdigit_char; cbn [forallb is_ascii N.ltb N.compare Pos.compare
                                             Pos.compare_cont]; now rewrite Hd).
    assert (Hint : int [178%N] = None)
      by (unfold int, int_acc, decimal_value; cbn [is_ascii N.ltb N.compare Pos.compare
                                                   Pos.compare_cont]; now rewrite Hv).
    assert (Hres : process_result [178%N] items = Raise ValueError)
      by (unfold process_result; now rewrite Hq, Hisd, Hint).
    repeat split; try assumption. rewrite Hres. discriminate.
Qed.

Lemma process_result_in_bounds {A} (s : pystr) (items : list A) (i : Z) :
  process_result s items = Return i -> 0 <= i < Z.of_nat (length items).
Proof.
  unfold process_result.
  destruct (str_in (lower s) quit_aliases); [discriminate|].
  destruct (isdigit s); simpl; [|discriminate].
  destruct (int s) as [n|]; [|discriminate].
  destruct (n - 1 <? 0) eqn:E1; simpl; [discriminate|].
  destruct (n - 1 >=? Z.of_nat (length items)) eqn:E2; [discriminate|].
  intro H. injection H as <-.
  apply Z.ltb_ge in E1. rewrite Z.geb_leb in E2. apply Z.leb_gt in E2. lia.
Qed.

Lemma result_bind {A B} (m : M A) (k : A -> M B) (b : B) :
  result (bind m k) = Return b ->
  exists a, result m = Return a /\ result (k a) = Return b.
Proof.
  unfold result. destruct m as [log [a|e|]]; simpl; try discriminate.
  destruct (k a) as [log' o] eqn:E. simpl. intro H. exists a. now rewrite E.
Qed.

Lemma result_bind_raise {A B} (m : M A) (k : A -> M B) (e : exn) :
  result (bind m k) = Raise e ->
  result m = Raise e \/ exists a, result m = Return a /\ result (k a) = Raise e.
Proof.
  unfold result. destruct m as [log [a|e'|]]; simpl; try discriminate.
  - destruct (k a) as [log' o] eqn:E. simpl. intro H. right. exists a. now rewrite E.
  - intro H. injection H as ->. now left.
Qed.

Lemma result_bind_eq {A B} (m : M A) (k : A -> M B) (a : A) :
  result m = Return a -> result (bind m k) = result (k a).
Proof.
  unfold result. destruct m as [log o]. simpl. intros ->. now destruct (k a).
Qed.

Lemma print_all_result (lines : list pystr) : result (print_all lines) = Return tt.
Proof.
  induction lines as [|l r IH]; [reflexivity|].
  cbn [print_all]. now rewrite (result_bind_eq _ _ tt).
Qed.

Lemma run_fzf_returns (w : World) (hdr : pystr) (rows : list pystr) :
  exists picked, result (run_fzf w hdr rows) = Return picked.
Proof.
  unfold run_fzf. destruct (which_fzf w); [|now exists None].
  rewrite (result_bind_eq _ _ tt) by reflexivity.
  destruct (fzf_communicate w hdr _) as [[rc out]|]; [|now exists None].
  destruct ((rc =? 0) && nonempty out); [|now exists None].
  destruct (nonempty (strip out)); eexists; reflexivity.
Qed.

Lemma fallback_result (w : World) (hdr : pystr) (rows : list pystr) :
  result (fallback w hdr rows) = Return (input w (lit "Selection: ")).
Proof.
  unfold fallback.
  rewrite (result_bind_eq _ _ tt) by reflexivity.
  rewrite (result_bind_eq _ _ tt) by apply print_all_result.
  now rewrite (result_bind_eq _ _ tt) by reflexivity.
Qed.

(** The outcome of [interactive_selection] is the validator's, on the
    text that the picker or the prompt delivered. *)
Lemma interactive_selection_result (w : World) (items : list SearchResult)
    (query_type : DownloadTypeEnum.t) :
  exists selection_input,
    result (interactive_selection w items query_type)
    = process_result selection_input items.
Proof.
  unfold interactive_selection.
  destruct (run_fzf_returns w (header query_type) (choices query_type items))
    as (picked & Hp).
  rewrite (result_bind_eq _ _ picked Hp).
  destruct picked as [[|c s]|].
  - exists (input w (lit "Selection: ")).
    now rewrite (result_bind_eq _ _ _ (fallback_result _ _ _)).
  - exists (c :: s). now rewrite (result_bind_eq _ _ (c :: s)).
  - exists (input w (lit "Selection: ")).
    now rewrite (result_bind_eq _ _ _ (fallback_result _ _ _)).
Qed.

Lemma interactive_selection_in_bounds (w : World) (items : list SearchResult)
    (query_type : DownloadTypeEnum.t) (i : Z) :
  result (interactive_selection w items query_type) = Return i ->
  0 <= i < Z.of_nat (length items).
Proof.
  destruct (interactive_selection_result w items query_type) as (s & ->).
  apply process_result_in_bounds.
Qed.

Lemma process_result_no_index_error {A} (s : pystr) (items : list A) :
  process_result s items <> Raise IndexError.
Proof.
  unfold process_result.
  destruct (str_in _ _); [discriminate|].
  destruct (isdigit s); simpl; [|discriminate].
  destruct (int s) as [n|]; [|discriminate].
  destruct (_ || _); discriminate.
Qed.

Lemma py_index_in_bounds {A} (l : list A) (i : Z) :
  0 <= i < Z.of_nat (length l) ->
  exists x, py_index l i = Return x /\ nth_error l (Z.to_nat i) = Some x.
Proof.
  intro H. unfold py_index.
  replace (i <? 0) with false by (symmetry; apply Z.ltb_ge; lia).
  replace (0 <=? i) with true by (symmetry; apply Z.leb_le; lia).
  replace (i <? Z.of_nat (length l)) with true by (symmetry; apply Z.ltb_lt; lia).
  simpl. destruct (nth_error l (Z.to_nat i)) as [x|] eqn:E.
  - now exists x.
  - apply nth_error_None in E. lia.
Qed.

(** C10. In-bounds selection. When [interactive_selection] returns an
    index, the index lies within the candidate list and the lookup of the
    selected item succeeds; in lucky mode index 0 is looked up in a list
    that the zero-results guard has made non-empty; so the search never
    ends in an IndexError, in either mode. *)
Theorem selection_lookup_in_bounds (orpheus : Orpheus) (w : World) :
  (forall items query_type i,
      result (interactive_selection w items query_type) = Return i ->
      0 <= i < Z.of_nat (length items)
      /\ exists item, py_index items i = Return item
                      /\ nth_error items (Z.to_nat i) = Some item)
  /\ (forall lucky_mode modulename query_type query,
        result (search_and_select orpheus w lucky_mode modulename query_type query)
        <> Raise IndexError).
Proof.
  split.
  - intros items qt i H. apply interactive_selection_in_bounds in H.
    split; [assumption | now apply py_index_in_bounds].
  - intros lucky modulename qt query. unfold search_and_select.
    rewrite (result_bind_eq _ _ tt) by reflexivity.
    rewrite (result_bind_eq _ _ tt) by reflexivity.
    set (items := search _ _ _ _).
    destruct (length items =? 0)%nat eqn:Elen; [discriminate|].
    apply Nat.eqb_neq in Elen.
    intro H. apply result_bind_raise in H as [H|(i & Hi & H)].
    + destruct lucky; [discriminate|].
      apply result_bind_raise in H as [H|(sel & _ & H)].
      * destruct (interactive_selection_result w items qt) as (s & Hs).
        rewrite Hs in H. now apply process_result_no_index_error in H.
      * rewrite (result_bind_eq _ _ tt) in H by reflexivity. discriminate.
    + assert (Hb : 0 <= i < Z.of_nat (length items)).
      { destruct lucky.
        - injection Hi as <-. lia.
        - apply result_bind in Hi as (sel & Hsel & Hi).
          apply interactive_selection_in_bounds in Hsel.
          rewrite (result_bind_eq _ _ tt) in Hi by reflexivity.
          injection Hi as <-. assumption. }
      destruct (py_index_in_bounds items i Hb) as (x & Hx & _).
      rewrite (result_bind_eq _ _ x) in H by (unfold lift, result; simpl; exact Hx).
      discriminate.
Qed.

End Selection.

(** ** Splitting and counting *)

Lemma split_no_sep (sep : char) (s : pystr) : ~ In sep s -> split sep s = [s].
Proof.
  induction s as [|c s IH]; [reflexivity|]. intro H. simpl.
  destruct (c =? sep)%N eqn:E.
  - apply N.eqb_eq in E. exfalso. apply H. now left.
  - rewrite IH; [reflexivity|]. intro Hin. apply H. now right.
Qed.

Lemma split_app_sep (sep : char) (a b : pystr) :
  ~ In sep a -> split sep (a ++ sep :: b) = a :: split sep b.
Proof.
  induction a as [|c a IH]; intro H; simpl.
  - now rewrite N.eqb_refl.
  - destruct (c =? sep)%N eqn:E.
    + apply N.eqb_eq in E. exfalso. apply H. now left.
    + rewrite IH; [reflexivity|]. intro Hin. apply H. now right.
Qed.

Lemma split_In (sep : char) (s p : pystr) (c : char) :
  In p (split sep s) -> In c p -> In c s.
Proof.
  revert p; induction s as [|x s IH]; intros p Hp Hc; simpl in Hp.
  - destruct Hp as [<-|[]]. assumption.
  - destruct (x =? sep)%N.
    + destruct Hp as [<-|Hp]; [destruct Hc|]. right. now apply (IH p).
    + destruct (split sep s) as [|h t] eqn:E.
      * destruct Hp as [<-|[]]. destruct Hc as [<-|[]]. now left.
      * destruct Hp as [<-|Hp].
        -- destruct Hc as [<-|Hc]; [now left|]. right. apply (IH h); [now left|assumption].
        -- right. apply (IH p); [now right|assumption].
Qed.

Lemma count_app (c : char) (a b : pystr) : count c (a ++ b) = (count c a + count c b)%nat.
Proof. unfold count. now rewrite filter_app, length_app. Qed.

Lemma count_absent (c : char) (s : pystr) : ~ In c s -> count c s = 0%nat.
Proof.
  unfold count. induction s as [|x s IH]; [reflexivity|]. intro H. simpl.
  destruct (c =? x)%N eqn:E.
  - apply N.eqb_eq in E. exfalso. apply H. now left.
  - apply IH. intro Hin. apply H. now right.
Qed.

Lemma In_ljust (c : char) (w : nat) (s : pystr) : In c (ljust w s) -> In c s \/ c = SPACE.
Proof.
  unfold ljust. intro H. apply in_app_or in H as [H|H]; [now left|].
  right. now apply repeat_spec in H.
Qed.

Lemma In_firstn_In {A} (n : nat) (l : list A) (x : A) : In x (firstn n l) -> In x l.
Proof.
  revert l; induction n as [|n IH]; intros [|y l]; simpl; try tauto.
  intros [H|H]; [now left | right; now apply IH].
Qed.

Lemma length_ljust (w : nat) (s : pystr) : length (ljust w s) = Nat.max w (length s).
Proof. unfold ljust. rewrite length_app, repeat_length. lia. Qed.

Lemma choices_from_length {imports : Imports} (query_type : DownloadTypeEnum.t) (index : Z)
    (items : list SearchResult) :
  length (choices_from query_type index items) = length items.
Proof.
  revert index; induction items as [|item rest IH]; intro index; simpl; [reflexivity|].
  now rewrite IH.
Qed.

Lemma choices_from_nth {imports : Imports} (query_type : DownloadTypeEnum.t) (index : Z)
    (items : list SearchResult) (k : nat) (item : SearchResult) :
  nth_error items k = Some item ->
  nth_error (choices_from query_type index items) k
  = Some (choice query_type (index + Z.of_nat k) item).
Proof.
  revert index k; induction items as [|x rest IH]; intros index [|k] H; simpl in *;
    try discriminate.
  - injection H as ->. now rewrite Z.add_0_r.
  - rewrite (IH (index + 1) k H). do 2 f_equal. lia.
Qed.

(** ** Candidate formatter *)

Section Formatter.
Context {imports : Imports}.

Lemma separator_not_digit (c : char) : separator c -> ascii_digit c = true -> False.
Proof. intros [->| ->]; discriminate. Qed.

Lemma separator_free_str_int (c : char) (n : Z) : separator c -> ~ In c (str_int n).
Proof.
  intros Hc Hin. apply str_int_chars in Hin as [->|Hd].
  - destruct Hc; discriminate.
  - now apply (separator_not_digit c).
Qed.

Ltac literal H :=
  simpl in H;
  repeat match type of H with
         | _ \/ _ => destruct H as [H|H]
         | False => destruct H
         | _ = _ => subst; match goal with Hc : separator _ |- _ => destruct Hc; discriminate end
         end.

Lemma separator_free_ljust (c : char) (w : nat) (s : pystr) :
  separator c -> ~ In c s -> ~ In c (ljust w s).
Proof.
  intros Hc Hs Hin. apply In_ljust in Hin as [Hin| ->]; [contradiction|].
  destruct Hc; discriminate.
Qed.

Lemma separator_free_index (c : char) (index : Z) :
  separator c -> ~ In c (ljust 4 (str_int index ++ lit ".")).
Proof.
  intro Hc. apply separator_free_ljust; [assumption|]. intro Hin.
  apply in_app_or in Hin as [Hin|Hin].
  - now apply (separator_free_str_int c index).
  - literal Hin.
Qed.

Section Item.
Variable item : SearchResult.
Variable c : char.
Hypothesis Hfree : free_of c item.
Hypothesis Hc : separator c.

Lemma separator_free_name : ~ In c (name item).
Proof. now destruct Hfree. Qed.

Lemma separator_free_full_artist : ~ In c (full_artist item).
Proof. now destruct Hfree as (_ & ? & _). Qed.

Lemma separator_free_full_dur : ~ In c (full_dur item).
Proof. now destruct Hfree as (_ & _ & ? & _). Qed.

Lemma separator_free_full_qual : ~ In c (full_qual item).
Proof. now destruct Hfree as (_ & _ & _ & ?). Qed.

Lemma separator_free_trunc_name : ~ In c (trunc_name item).
Proof.
  unfold trunc_name. destruct (38 <? length (name item))%nat.
  - intro Hin. apply in_app_or in Hin as [Hin|Hin].
    + apply In_firstn_In in Hin. now apply separator_free_name.
    + literal Hin.
  - apply separator_free_name.
Qed.

Lemma separator_free_year_str : ~ In c (year_str item).
Proof.
  unfold year_str. intro Hin. destruct (year item) as [y|].
  - destruct (truthy_int (Some y)).
    + now apply (separator_free_str_int c y).
    + literal Hin.
  - literal Hin.
Qed.

Lemma separator_free_short_dur : ~ In c (short_dur item).
Proof.
  unfold short_dur. destruct (char_in 104%N (full_dur item));
    [|apply separator_free_full_dur].
  destruct (split COLON (full_dur item)) as [|p0 [|p1 ps]] eqn:E;
    try apply separator_free_full_dur.
  intro Hin. apply separator_free_full_dur.
  apply in_app_or in Hin as [Hin|Hin].
  - apply (split_In COLON _ p0); [rewrite E; now left | assumption].
  - apply in_app_or in Hin as [Hin|Hin]; [literal Hin|].
    apply (split_In COLON _ p1); [rewrite E; right; now left | assumption].
Qed.

Lemma separator_free_expl : ~ In c (expl item).
Proof. unfold expl. intro Hin. destruct (explicit item); literal Hin. Qed.

Lemma separator_free_short_qual : ~ In c (short_qual item).
Proof.
  unfold short_qual. intro Hin.
  destruct (contains _ _); [literal Hin|].
  destruct (contains _ _); [literal Hin|].
  destruct (contains _ _); [literal Hin|].
  apply In_firstn_In in Hin. now apply separator_free_full_qual.
Qed.

Lemma separator_free_h_year : ~ In c (h_year item).
Proof.
  unfold h_year. destruct (truthy_int _); [apply separator_free_year_str | intros []].
Qed.

Lemma separator_free_h_dur : ~ In c (h_dur item).
Proof.
  unfold h_dur. destruct (truthy_int _); [apply separator_free_full_dur | intros []].
Qed.

Lemma separator_free_h_qual : ~ In c (h_qual item).
Proof.
  unfold h_qual. destruct (truthy_list _); [apply separator_free_full_qual | intros []].
Qed.

Lemma separator_free_is_expl_str : ~ In c (is_expl_str item).
Proof. unfold is_expl_str. intro Hin. destruct (explicit item); literal Hin. Qed.

End Item.

Lemma not_In_app (c : char) (a b : pystr) : ~ In c a -> ~ In c b -> ~ In c (a ++ b).
Proof. intros Ha Hb Hin. apply in_app_or in Hin. tauto. Qed.

Lemma not_In_space (c : char) (s : pystr) : separator c -> ~ In c s -> ~ In c (SPACE :: s).
Proof. intros Hc Hs [E|Hin]; [subst; destruct Hc; discriminate | contradiction]. Qed.

Lemma visible_free (query_type : DownloadTypeEnum.t) (index : Z)
    (item : SearchResult) (c : char) :
  free_of c item -> separator c -> ~ In c (visible query_type index item).
Proof.
  intros Hitem Hc. unfold visible.
  destruct (layout_mode query_type); simpl app;
    repeat first
      [ simple apply separator_free_index; assumption
      | simple apply separator_free_ljust; [assumption|]
      | simple apply not_In_space; [assumption|]
      | simple apply not_In_app ];
    auto using separator_free_name, separator_free_trunc_name,
      separator_free_year_str, separator_free_short_dur, separator_free_expl,
      separator_free_short_qual.
Qed.

Lemma visible_no_separator (query_type : DownloadTypeEnum.t) (index : Z)
    (item : SearchResult) (c : char) :
  well_separated item -> separator c -> ~ In c (visible query_type index item).
Proof. intros Hitem Hc. apply visible_free; [exact (Hitem c Hc) | exact Hc]. Qed.

Lemma visible_nonempty (query_type : DownloadTypeEnum.t) (index : Z) (item : SearchResult) :
  visible query_type index item <> [].
Proof.
  intro E. apply (f_equal (@length char)) in E. unfold visible in E.
  destruct (layout_mode query_type); rewrite length_app, length_ljust in E; simpl in E; lia.
Qed.

Lemma hidden_no_tab (item : SearchResult) : free_of TAB item -> ~ In TAB (hidden item).
Proof.
  intro Hitem. assert (Hc : separator TAB) by now left. unfold hidden. simpl app.
  repeat first [ apply not_In_app | intros [E|Hin]; [discriminate E | revert Hin] ];
    try apply (separator_free_is_expl_str item TAB Hitem Hc);
    auto using separator_free_name, separator_free_full_artist, separator_free_h_year,
      separator_free_h_dur, separator_free_h_qual.
Qed.

Lemma hidden_fields (item : SearchResult) :
  free_of PIPE item ->
  split PIPE (hidden item)
  = [name item; full_artist item; h_year item; h_dur item; h_qual item; is_expl_str item].
Proof.
  intro Hitem. assert (Hc : separator PIPE) by now right. unfold hidden. simpl app.
  rewrite split_app_sep by now apply separator_free_name.
  rewrite split_app_sep by now apply separator_free_full_artist.
  rewrite split_app_sep by now apply separator_free_h_year.
  rewrite split_app_sep by now apply separator_free_h_dur.
  rewrite split_app_sep by now apply separator_free_h_qual.
  rewrite split_no_sep by now apply separator_free_is_expl_str.
  reflexivity.
Qed.

(** What the six fields hold. *)
Lemma hidden_field_values (item : SearchResult) :
  (forall names, artists item = ArtistList names -> full_artist item = join (lit ", ") names)
  /\ h_year item = match year item with
                   | Some y => if y =? 0 then [] else str_int y
                   | None => []
                   end
  /\ h_dur item = match duration item with
                  | Some d => if d =? 0 then [] else beauty_format_seconds d
                  | None => []
                  end
  /\ h_qual item = match additional item with
                   | Some (q :: _) => q
                   | _ => []
                   end
  /\ is_expl_str item = if explicit item then lit "1" else lit "0".
Proof.
  split; [|split; [|split; [|split]]].
  - intros names E. unfold full_artist. now rewrite E.
  - unfold h_year, year_str. destruct (year item) as [y|]; [|reflexivity].
    simpl. now destruct (y =? 0).
  - unfold h_dur, full_dur. destruct (duration item) as [d|]; [|reflexivity].
    simpl. now destruct (d =? 0).
  - unfold h_qual, full_qual. now destruct (additional item) as [[|q qs]|].
  - reflexivity.
Qed.

(** C5 (as amended). Candidate rows. A list of N search results gives N
    rows; each row is the visible half, a tab and the hidden payload, and
    the visible half is never empty. When none of the texts of an item
    (name, artists, duration text, quality label) contains a tab, its
    row has exactly one tab, which splits it into the visible half and
    the hidden payload. When none of them contains a pipe, the payload
    splits at its pipes into exactly six fields: name, artists (joined
    by ", " when a list), year or empty, full duration or empty, full
    quality or empty, and the flag "1" or "0". *)
Theorem candidate_rows (query_type : DownloadTypeEnum.t) (items : list SearchResult) :
  length (choices query_type items) = length items
  /\ forall k item,
       nth_error items k = Some item ->
       let index := Z.of_nat k + 1 in
       let row := visible query_type index item ++ [TAB] ++ hidden item in
       nth_error (choices query_type items) k = Some row
       /\ visible query_type index item <> []
       /\ (free_of TAB item ->
           count TAB row = 1%nat
           /\ split TAB row = [visible query_type index item; hidden item])
       /\ (free_of PIPE item ->
           split PIPE (hidden item)
           = [name item; full_artist item; h_year item; h_dur item; h_qual item;
              is_expl_str item])
       /\ (forall names,
             artists item = ArtistList names -> full_artist item = join (lit ", ") names)
       /\ h_year item = match year item with
                        | Some y => if y =? 0 then [] else str_int y
                        | None => []
                        end
       /\ h_dur item = match duration item with
                       | Some d => if d =? 0 then [] else beauty_format_seconds d
                       | None => []
                       end
       /\ h_qual item = match additional item with
                        | Some (q :: _) => q
                        | _ => []
                        end
       /\ is_expl_str item = if explicit item then lit "1" else lit "0".
Proof.
  split; [apply choices_from_length|].
  intros k item Hk index row.
  split; [|split; [|split; [|split]]].
  - unfold choices. rewrite (choices_from_nth query_type 1 items k item Hk).
    unfold choice, row, index. do 3 f_equal. lia.
  - apply visible_nonempty.
  - intro Hfree.
    assert (Hv : ~ In TAB (visible query_type index item))
      by (apply visible_free; [assumption | now left]).
    assert (Hh : ~ In TAB (hidden item)) by now apply hidden_no_tab.
    split.
    + unfold row. rewrite count_app, (count_absent _ _ Hv).
      change ([TAB] ++ hidden item) with (TAB :: hidden item).
      unfold count. simpl. fold (count TAB (hidden item)).
      now rewrite (count_absent _ _ Hh).
    + unfold row. simpl app. rewrite split_app_sep by assumption.
      now rewrite split_no_sep.
  - intro Hfree. now apply hidden_fields.
  - apply hidden_field_values.
Qed.

(** C6. Name truncation in the detailed layout. The visible half is the
    index column, a space, the name column, a space and the remaining
    columns. For a name longer than 38 characters the name shown is its
    first 37 characters followed by the ellipsis, 38 characters in all
    (two spaces fill the column); a name of at most 38 characters is
    shown whole, without the ellipsis, padded with spaces to the 40
    characters of the column. *)
Theorem name_truncation (query_type : DownloadTypeEnum.t) (index : Z) (item : SearchResult) :
  layout_mode query_type = detailed ->
  visible query_type index item
  = ljust 4 (str_int index ++ lit ".") ++ [SPACE] ++ ljust 40 (trunc_name item) ++ [SPACE]
    ++ ljust 6 (year_str item) ++ [SPACE] ++ ljust 8 (short_dur item) ++ [SPACE]
    ++ ljust 3 (expl item) ++ [SPACE] ++ short_qual item
  /\ ((38 < length (name item))%nat ->
      trunc_name item = firstn 37 (name item) ++ [ELLIPSIS]
      /\ length (trunc_name item) = 38%nat
      /\ ljust 40 (trunc_name item) = firstn 37 (name item) ++ [ELLIPSIS; SPACE; SPACE])
  /\ ((length (name item) <= 38)%nat ->
      trunc_name item = name item
      /\ ljust 40 (trunc_name item) = name item ++ repeat SPACE (40 - length (name item))
      /\ length (ljust 40 (trunc_name item)) = 40%nat).
Proof.
  intro Hl. split; [|split].
  - unfold visible. now rewrite Hl.
  - intro Hlong. unfold trunc_name.
    replace (38 <? length (name item))%nat with true by (symmetry; apply Nat.ltb_lt; lia).
    assert (Hlen : length (firstn 37 (name item) ++ [ELLIPSIS]) = 38%nat).
    { rewrite length_app, length_firstn. cbn [length]. lia. }
    split; [reflexivity|]. split; [assumption|].
    unfold ljust. rewrite Hlen. simpl. now rewrite <- app_assoc.
  - intro Hshort. unfold trunc_name.
    replace (38 <? length (name item))%nat with false by (symmetry; apply Nat.ltb_ge; lia).
    split; [reflexivity|]. split; [reflexivity|].
    rewrite length_ljust. lia.
Qed.

(** C9 (as amended). A year equal to 0 is treated like an absent year,
    and a duration equal to 0 like an absent duration, each on its own
    and whatever the other field holds: the row is the same as with the
    field missing, the year text is the placeholder "----" (the duration
    texts are the placeholder "--:--") and the payload field is empty.
    In the detailed layout the visible row shows the placeholder in the
    year column (in the length column); in the simple layout of the
    artist search the visible row has the index and the name only. *)
Theorem zero_like_absent (query_type : DownloadTypeEnum.t) (index : Z) (item : SearchResult) :
  (forall y,
      y = Some 0 \/ y = None ->
      let it := with_year_duration item y (duration item) in
      choice query_type index it
      = choice query_type index (with_year_duration item None (duration item))
      /\ year_str it = lit "----"
      /\ h_year it = []
      /\ hidden it = name item ++ [PIPE] ++ full_artist item ++ [PIPE] ++ [PIPE]
                     ++ h_dur item ++ [PIPE] ++ h_qual item ++ [PIPE] ++ is_expl_str item
      /\ (layout_mode query_type = detailed ->
          visible query_type index it
          = ljust 4 (str_int index ++ lit ".") ++ [SPACE] ++ ljust 40 (trunc_name item)
            ++ [SPACE] ++ lit "----  " ++ [SPACE] ++ ljust 8 (short_dur item) ++ [SPACE]
            ++ ljust 3 (expl item) ++ [SPACE] ++ short_qual item))
  /\ (forall d,
        d = Some 0 \/ d = None ->
        let it := with_year_duration item (year item) d in
        choice query_type index it
        = choice query_type index (with_year_duration item (year item) None)
        /\ full_dur it = lit "--:--" /\ short_dur it = lit "--:--"
        /\ h_dur it = []
        /\ hidden it = name item ++ [PIPE] ++ full_artist item ++ [PIPE] ++ h_year item
                       ++ [PIPE] ++ [PIPE] ++ h_qual item ++ [PIPE] ++ is_expl_str item
        /\ (layout_mode query_type = detailed ->
            visible query_type index it
            = ljust 4 (str_int index ++ lit ".") ++ [SPACE] ++ ljust 40 (trunc_name item)
              ++ [SPACE] ++ ljust 6 (year_str item) ++ [SPACE] ++ lit "--:--   " ++ [SPACE]
              ++ ljust 3 (expl item) ++ [SPACE] ++ short_qual item))
  /\ (forall y d,
        y = Some 0 \/ y = None -> d = Some 0 \/ d = None ->
        let it := with_year_duration item y d in
        choice query_type index it = choice query_type index (with_year_duration item None None)
        /\ year_str it = lit "----" /\ full_dur it = lit "--:--" /\ short_dur it = lit "--:--"
        /\ h_year it = [] /\ h_dur it = []
        /\ hidden it = name item ++ [PIPE] ++ full_artist item ++ [PIPE] ++ [PIPE] ++ [PIPE]
                       ++ h_qual item ++ [PIPE] ++ is_expl_str item
        /\ (layout_mode query_type = detailed ->
            visible query_type index it
            = ljust 4 (str_int index ++ lit ".") ++ [SPACE] ++ ljust 40 (trunc_name item)
              ++ [SPACE] ++ lit "----  " ++ [SPACE] ++ lit "--:--   " ++ [SPACE]
              ++ ljust 3 (expl item) ++ [SPACE] ++ short_qual item))
  /\ (forall y d,
        layout_mode query_type = simple ->
        visible query_type index (with_year_duration item y d)
        = ljust 4 (str_int index ++ lit ".") ++ [SPACE] ++ name item).
Proof.
  split; [|split; [|split]].
  - intros y Hy it.
    assert (Ey : year_str it = lit "----") by (destruct Hy; subst; reflexivity).
    assert (Ehy : h_year it = []) by (destruct Hy; subst; reflexivity).
    split; [destruct Hy; subst; reflexivity|].
    split; [assumption|]. split; [assumption|]. split.
    + unfold hidden. rewrite Ehy. reflexivity.
    + intro Hl. unfold visible. rewrite Hl, Ey. reflexivity.
  - intros d Hd it.
    assert (Ed : full_dur it = lit "--:--") by (destruct Hd; subst; reflexivity).
    assert (Es : short_dur it = lit "--:--") by (unfold short_dur; rewrite Ed; reflexivity).
    assert (Ehd : h_dur it = []) by (destruct Hd; subst; reflexivity).
    split; [destruct Hd; subst; reflexivity|].
    split; [assumption|]. split; [assumption|]. split; [assumption|]. split.
    + unfold hidden. rewrite Ehd. reflexivity.
    + intro Hl. unfold visible. rewrite Hl, Es. reflexivity.
  - intros y d Hy Hd it.
    assert (Ey : year_str it = lit "----") by (destruct Hy; subst; reflexivity).
    assert (Ed : full_dur it = lit "--:--") by (destruct Hd; subst; reflexivity).
    assert (Es : short_dur it = lit "--:--") by (unfold short_dur; rewrite Ed; reflexivity).
    assert (Ehy : h_year it = []) by (destruct Hy; subst; reflexivity).
    assert (Ehd : h_dur it = []) by (destruct Hd; subst; reflexivity).
    split; [destruct Hy, Hd; subst; reflexivity|].
    repeat (split; [assumption|]). split.
    + unfold hidden. rewrite Ehy, Ehd. reflexivity.
    + intro Hl. unfold visible. rewrite Hl, Ey, Es. reflexivity.
  - intros y d Hl. unfold visible. rewrite Hl. reflexivity.
Qed.

End Formatter.

(** ** URL router *)

Section Router.
Context {imports : Imports}.
Variable orpheus : Orpheus.

Lemma locate_fold_none (host : pystr) (entries : list (pystr * pystr)) (acc : option pystr) :
  (forall p m, In (p, m) entries -> re_findall p host = []) ->
  fold_left
    (fun service_name entry =>
       if nonempty (re_findall (fst entry) host) then Some (snd entry) else service_name)
    entries acc = acc.
Proof.
  revert acc; induction entries as [|[p m] rest IH]; intros acc H; [reflexivity|].
  simpl. rewrite (H p m) by now left. simpl. apply IH.
  intros p' m' Hin. apply (H p' m'). now right.
Qed.

Lemma locate_last_match (host : pystr) (before after : list (pystr * pystr))
    (pattern m : pystr) :
  module_netloc_constants orpheus = before ++ (pattern, m) :: after ->
  re_findall pattern host <> [] ->
  (forall p' m', In (p', m') after -> re_findall p' host = []) ->
  locate_service orpheus host = Some m.
Proof.
  intros E Hm Hafter. unfold locate_service. rewrite E, fold_left_app. simpl.
  destruct (re_findall pattern host) as [|x xs]; [contradiction|]. simpl.
  now apply locate_fold_none.
Qed.

Lemma process_link_located (link : pystr) (media_to_download : batch) (m : pystr) :
  startswith link (lit "http") = true ->
  locate_service orpheus (netloc (urlparse link)) = Some m -> m <> [] ->
  process_link orpheus media_to_download link
  = route orpheus m link (split SLASH (path (urlparse link))) media_to_download.
Proof.
  intros Hs Hl Hm. unfold process_link. rewrite Hs, Hl.
  destruct m; [contradiction | reflexivity].
Qed.

(** C3. Network-location resolution. The host of the URL is tested
    against the registered patterns in registry order and the module of
    the last matching pattern is the one the link is routed to (module
    names are not empty); when no pattern matches, the link raises "URL
    location ... is not found in modules!". *)
Theorem netloc_resolution :
  (forall host before pattern m after,
      module_netloc_constants orpheus = before ++ (pattern, m) :: after ->
      re_findall pattern host <> [] ->
      (forall p' m', In (p', m') after -> re_findall p' host = []) ->
      locate_service orpheus host = Some m)
  /\ (forall host,
        (forall p m, In (p, m) (module_netloc_constants orpheus) -> re_findall p host = []) ->
        locate_service orpheus host = None)
  /\ (forall link media_to_download m,
        startswith link (lit "http") = true ->
        locate_service orpheus (netloc (urlparse link)) = Some m -> m <> [] ->
        process_link orpheus media_to_download link
        = route orpheus m link (split SLASH (path (urlparse link))) media_to_download)
  /\ (forall link media_to_download,
        startswith link (lit "http") = true ->
        locate_service orpheus (netloc (urlparse link)) = None ->
        process_link orpheus media_to_download link
        = ([], Raise (Exception (lit "URL location " ++ quoted (netloc (urlparse link))
                                 ++ lit " is not found in modules!")))).
Proof.
  split; [|split; [|split]].
  - intros host before pattern m after. apply locate_last_match.
  - intros host H. unfold locate_service. now apply locate_fold_none.
  - apply process_link_located.
  - intros link mtd Hs Hl. unfold process_link. now rewrite Hs, Hl.
Qed.

Lemma type_matches_app (a b : list (pystr * DownloadTypeEnum.t)) (components : list pystr) :
  type_matches (a ++ b) components = type_matches a components ++ type_matches b components.
Proof. unfold type_matches. now rewrite filter_app, map_app. Qed.

Lemma type_matches_none (rules : list (pystr * DownloadTypeEnum.t)) (components : list pystr) :
  (forall k t, In (k, t) rules -> ~ In k components) -> type_matches rules components = [].
Proof.
  induction rules as [|[k t] rest IH]; intro H; [reflexivity|].
  unfold type_matches in *. simpl.
  replace (str_in k components) with false.
  - apply IH. intros k' t' Hin. apply (H k' t'). now right.
  - symmetry. apply str_in_not_In. apply (H k t). now left.
Qed.

Lemma type_matches_last (before after : list (pystr * DownloadTypeEnum.t))
    (key : pystr) (ty : DownloadTypeEnum.t) (components : list pystr) :
  In key components ->
  (forall k t, In (k, t) after -> ~ In k components) ->
  type_matches (before ++ (key, ty) :: after) components
  = type_matches before components ++ [ty].
Proof.
  intros Hk Hafter. rewrite type_matches_app. f_equal.
  change ((key, ty) :: after) with ([(key, ty)] ++ after).
  rewrite type_matches_app, (type_matches_none after) by assumption.
  unfold type_matches. simpl. now rewrite (proj2 (str_in_In key components) Hk).
Qed.

(** C2. Automatic path-to-type resolution, for a URL routed to a module
    without manual URL decoding. The rules in force are the module's own
    mapping when it is present and not empty, and the default mapping of
    track, album, playlist and artist otherwise. Among the rule keys that
    occur among the path segments, the type of the last one in the order
    of the mapping is selected and the identifier is the last path
    segment; when no rule key occurs among the segments, "Invalid URL" is
    printed and the run ends without an identification. This step takes
    over from the path-length check. *)
Theorem automatic_type_resolution (service_name link : pystr) (components : list pystr)
    (media_to_download : batch) :
  let info := module_settings orpheus service_name in
  let rules := effective_url_constants info in
  rules = match url_constants info with
          | Some (e :: r) => e :: r
          | _ => [(lit "track", DownloadTypeEnum.track);
                  (lit "album", DownloadTypeEnum.album);
                  (lit "playlist", DownloadTypeEnum.playlist);
                  (lit "artist", DownloadTypeEnum.artist)]
          end
  /\ (forall before key ty after,
        rules = before ++ (key, ty) :: after ->
        In key components ->
        (forall k t, In (k, t) after -> ~ In k components) ->
        resolve_type orpheus service_name link components media_to_download
        = ([], Return (dict_append media_to_download service_name
                         {| media_type := ty;
                            media_id := last components [];
                            mi_extra_kwargs := None |})))
  /\ ((forall k t, In (k, t) rules -> ~ In k components) ->
      resolve_type orpheus service_name link components media_to_download
      = ([EvPrint (lit "Invalid URL: " ++ quoted link)], Exit))
  /\ (startswith link (lit "http") = true ->
      locate_service orpheus (netloc (urlparse link)) = Some service_name ->
      service_name <> [] ->
      url_decoding info = ManualEnum.automatic ->
      components = split SLASH (path (urlparse link)) ->
      (2 < length components)%nat ->
      process_link orpheus media_to_download link
      = resolve_type orpheus service_name link components
          (ensure_key media_to_download service_name)).
Proof.
  intros info rules. split; [reflexivity|]. split; [|split].
  - intros before key ty after E Hk Hafter. unfold resolve_type.
    fold info. fold rules. rewrite E, (type_matches_last before after key ty) by assumption.
    destruct (type_matches before components) as [|m ms]; [reflexivity|].
    change ((m :: ms) ++ [ty]) with (m :: (ms ++ [ty])).
    cbv iota beta. unfold ret. do 4 f_equal.
    change (m :: ms ++ [ty]) with ((m :: ms) ++ [ty]). apply last_last.
  - intro H. unfold resolve_type. fold info. fold rules.
    now rewrite (type_matches_none rules components H).
  - intros Hs Hl Hm Hd -> Hlen.
    rewrite (process_link_located link media_to_download service_name Hs Hl Hm).
    unfold route. fold info. rewrite Hd. unfold route_automatic.
    replace (length _ <=? 2)%nat with false; [reflexivity|].
    symmetry. apply Nat.leb_gt. assumption.
Qed.

(** C4 (as amended). Path-length guard. For a URL that resolves to a
    module with automatic URL decoding, a path of fewer than 3 segments
    makes the router print "Invalid URL" and end the run, so that no
    identification is produced. For a module with manual URL decoding the
    guard is not applied: whatever the number of path segments, the link
    goes to the module's own parser, and the identification it returns
    is appended to the batch. *)
Theorem path_length_guard (link service_name : pystr) (media_to_download : batch) :
  startswith link (lit "http") = true ->
  locate_service orpheus (netloc (urlparse link)) = Some service_name ->
  service_name <> [] ->
  (url_decoding (module_settings orpheus service_name) = ManualEnum.automatic ->
   (length (split SLASH (path (urlparse link))) < 3)%nat ->
   process_link orpheus media_to_download link
   = ([EvPrint ([TAB] ++ lit "Invalid URL: " ++ quoted link)], Exit))
  /\ (url_decoding (module_settings orpheus service_name) = ManualEnum.manual ->
      process_link orpheus media_to_download link
      = route_manual orpheus service_name link (ensure_key media_to_download service_name)
      /\ forall parsed,
           custom_url_parse (load_module orpheus service_name) link = Return parsed ->
           process_link orpheus media_to_download link
           = ([EvLoadModule service_name; EvCustomUrlParse service_name link],
              Return (dict_append (ensure_key media_to_download service_name)
                        service_name parsed))).
Proof.
  intros Hs Hl Hm.
  rewrite (process_link_located link media_to_download service_name Hs Hl Hm).
  unfold route. split; intro Hd; rewrite Hd.
  - intro Hlen. unfold route_automatic.
    replace (length _ <=? 2)%nat with true; [reflexivity|].
    symmetry. apply Nat.leb_le. lia.
  - split; [reflexivity|]. intros parsed Hp. unfold route_manual.
    now rewrite Hp.
Qed.

End Router.

(** ** Request aggregator *)

Section Aggregator.
Context {imports : Imports}.
Variable orpheus : Orpheus.

Lemma dict_get_set {V} (d : list (pystr * V)) (m k : pystr) (v : V) :
  dict_get (dict_set d m v) k = if str_eqb m k then Some v else dict_get d k.
Proof.
  induction d as [|[k' v'] r IH]; simpl.
  - reflexivity.
  - destruct (str_eqb k' m) eqn:E; simpl.
    + apply str_eqb_eq in E. subst k'. now destruct (str_eqb m k).
    + rewrite IH. destruct (str_eqb k' k) eqn:E'; [|reflexivity].
      apply str_eqb_eq in E'. subst k'.
      destruct (str_eqb m k) eqn:E''; [|reflexivity].
      apply str_eqb_eq in E''. subst m. now rewrite str_eqb_refl in E.
Qed.

Lemma dict_get_append {V} (d : list (pystr * list V)) (m k : pystr) (x : V) :
  dict_get (dict_append d m x) k
  = if str_eqb m k then option_map (fun v => v ++ [x]) (dict_get d m) else dict_get d k.
Proof.
  induction d as [|[k' v'] r IH]; simpl.
  - now destruct (str_eqb m k).
  - destruct (str_eqb k' m) eqn:E; simpl.
    + apply str_eqb_eq in E. subst k'. now destruct (str_eqb m k).
    + rewrite IH. destruct (str_eqb k' k) eqn:E'; [|reflexivity].
      apply str_eqb_eq in E'. subst k'.
      destruct (str_eqb m k) eqn:E''; [|reflexivity].
      apply str_eqb_eq in E''. subst m. now rewrite str_eqb_refl in E.
Qed.

(** The module's sequence after one more identification for [m]. *)
Lemma dict_get_ensure_append (d : batch) (m k : pystr) (x : MediaIdentification) :
  dict_get (dict_append (ensure_key d m) m x) k
  = if str_eqb m k
    then Some (match dict_get d m with Some v => v | None => [] end ++ [x])
    else dict_get d k.
Proof.
  rewrite dict_get_append. unfold ensure_key, dict_mem.
  destruct (dict_get d m) as [v|] eqn:E.
  - rewrite E. reflexivity.
  - rewrite !dict_get_set, str_eqb_refl. simpl.
    destruct (str_eqb m k); reflexivity.
Qed.

Lemma route_shape (m link : pystr) (components : list pystr) (d d' : batch) :
  result (route orpheus m link components d) = Return d' ->
  exists x, forall d2,
    result (route orpheus m link components d2) = Return (dict_append (ensure_key d2 m) m x).
Proof.
  unfold route. destruct (url_decoding (module_settings orpheus m)).
  - unfold route_manual. rewrite !(result_bind_eq _ _ tt) by reflexivity.
    destruct (custom_url_parse (load_module orpheus m) link) as [parsed| |] eqn:E;
      try discriminate.
    intros _. exists parsed. intro d2.
    rewrite !(result_bind_eq _ _ tt) by reflexivity.
    reflexivity.
  - unfold route_automatic. destruct (length components <=? 2)%nat; [discriminate|].
    unfold resolve_type.
    destruct (type_matches _ components) as [|t ts]; [discriminate|].
    intros _. eexists. intro d2. reflexivity.
Qed.

Lemma process_link_shape (link : pystr) (d d' : batch) :
  result (process_link orpheus d link) = Return d' ->
  exists m x, forall d2,
    result (process_link orpheus d2 link) = Return (dict_append (ensure_key d2 m) m x).
Proof.
  unfold process_link. destruct (startswith link (lit "http")); [|discriminate].
  destruct (locate_service orpheus _) as [[|c s]|]; try discriminate.
  intro H. apply route_shape in H as (x & Hx). now exists (c :: s), x.
Qed.

Lemma resolved_of_shape (link m : pystr) (x : MediaIdentification) :
  (forall d2, result (process_link orpheus d2 link)
              = Return (dict_append (ensure_key d2 m) m x)) ->
  resolved orpheus link = Some (m, x).
Proof.
  intro H. unfold resolved. rewrite (H []).
  unfold ensure_key. simpl. now rewrite str_eqb_refl.
Qed.

Lemma identifications_for_cons (m link : pystr) (rest : list pystr) :
  identifications_for orpheus m (link :: rest)
  = match resolved orpheus link with
    | Some (s, identification) => if str_eqb s m then [identification] else []
    | None => []
    end ++ identifications_for orpheus m rest.
Proof. reflexivity. Qed.

Lemma process_links_sequences (links : list pystr) (d b : batch) :
  result (process_links orpheus d links) = Return b ->
  forall m,
    dict_get b m
    = match dict_get d m with
      | Some v => Some (v ++ identifications_for orpheus m links)
      | None => match identifications_for orpheus m links with
                | [] => None
                | l => Some l
                end
      end.
Proof.
  revert d; induction links as [|link rest IH]; intros d H m.
  - injection H as <-. simpl. destruct (dict_get d m); [now rewrite app_nil_r | reflexivity].
  - cbn [process_links] in H. apply result_bind in H as (d1 & H1 & H).
    destruct (process_link_shape link d d1 H1) as (m1 & x & Hshape).
    rewrite (Hshape d) in H1. injection H1 as <-.
    rewrite (IH _ H m), dict_get_ensure_append, identifications_for_cons.
    rewrite (resolved_of_shape link m1 x Hshape).
    destruct (str_eqb m1 m) eqn:E.
    + apply str_eqb_eq in E. subst m1.
      destruct (dict_get d m); simpl; [now rewrite <- app_assoc | reflexivity].
    + simpl. reflexivity.
Qed.

(** C7. Request aggregator. When a list of links is processed without
    failure, the sequence recorded for each module consists of the
    identifications of the links routed to that module, in the order of
    the links (a module no link was routed to has no entry). With no
    link at all the batch is empty: "No links given" is printed and the
    empty batch is handed to the download pipeline, without an error. *)
Theorem request_aggregation (w : World) (args : Args) (orpheus_mode path : pystr) :
  (forall links b,
      result (process_links orpheus [] links) = Return b ->
      forall m,
        dict_get b m = match identifications_for orpheus m links with
                       | [] => None
                       | l => Some l
                       end)
  /\ process_links orpheus [] [] = ([], Return [])
  /\ (str_in orpheus_mode [lit "search"; lit "luckysearch"; lit "download"] = false ->
      links_of w (arguments args) = [] ->
      resolve_and_download orpheus w args orpheus_mode path
      = ([EvPrint (lit "No links given");
          EvDownload [] (tpm orpheus args) (lower (separatedownload args)) path],
         Return tt)).
Proof.
  split; [|split].
  - intros links b H m. now rewrite (process_links_sequences links [] b H m).
  - reflexivity.
  - intros Hmode Hlinks. unfold resolve_and_download, url_mode.
    unfold str_in in Hmode. simpl in Hmode.
    apply orb_false_iff in Hmode as [H1 Hmode].
    apply orb_false_iff in Hmode as [H2 Hmode].
    apply orb_false_iff in Hmode as [H3 _].
    rewrite H1, H2, H3, Hlinks. reflexivity.
Qed.

(** ** Search *)

Lemma trace_bind_ret {A B} (m : M A) (f : A -> B) :
  trace (bind m (fun a => ret (f a))) = trace m.
Proof.
  unfold trace. destruct m as [log [a| |]]; simpl; [apply app_nil_r | reflexivity..].
Qed.

Lemma lucky_trace (w : World) (modulename : pystr) (query_type : DownloadTypeEnum.t)
    (query : pystr) :
  trace (search_and_select orpheus w true modulename query_type query)
  = [EvLoadModule modulename; EvSearch modulename query_type query 1].
Proof.
  unfold search_and_select.
  destruct (search (load_module orpheus modulename) query_type query 1) as [|item rest];
    reflexivity.
Qed.

(** C8. Lucky search. The module's search is called with a result limit
    of 1; with at least one result the first one is taken, and loading
    the module and searching are the only events, so that neither the
    picker nor the prompt is used; with no result the search raises "No
    search results for ..." before any selection. Whatever the arguments
    of a [luckysearch] run, no picker or prompt event occurs and every
    search has limit 1. *)
Theorem lucky_search (w : World) (modulename : pystr) (query_type : DownloadTypeEnum.t)
    (query : pystr) :
  let items := search (load_module orpheus modulename) query_type query 1 in
  let run := search_and_select orpheus w true modulename query_type query in
  trace run = [EvLoadModule modulename; EvSearch modulename query_type query 1]
  /\ (items = [] ->
      result run = Raise (Exception (lit "No search results for "
                                     ++ DownloadTypeEnum.name query_type ++ lit ": " ++ query)))
  /\ (forall item rest,
        items = item :: rest ->
        py_index items 0 = Return item
        /\ result run = Return [(modulename,
                                 [{| media_type := query_type;
                                     media_id := result_id item;
                                     mi_extra_kwargs := Some (extra_kwargs item) |}])])
  /\ (forall args,
        forallb (fun e => negb (selection_event e) && search_limit_is 1 e)
                (trace (search_mode orpheus w (lit "luckysearch") args)) = true).
Proof.
  intros items run. split; [apply lucky_trace|]. split; [|split].
  - intro E. unfold run, search_and_select. fold items. now rewrite E.
  - intros item rest E. unfold run, search_and_select. fold items. now rewrite E.
  - intro args. unfold search_mode.
    destruct (3 <? length args)%nat; [|reflexivity].
    destruct (str_in _ (module_list orpheus)).
    + destruct (DownloadTypeEnum.of_name _) as [qt|]; [|reflexivity].
      change (str_eqb (lit "luckysearch") (lit "luckysearch")) with true.
      rewrite trace_bind_ret, lucky_trace. reflexivity.
    + destruct (str_eqb _ (lit "multi")); reflexivity.
Qed.

End Aggregator.

(** * The statements at work on the sample installation *)

Ltac absent := vm_compute; intuition discriminate.

Lemma sample_well_separated (id title : string) (y d : Z) :
  (forall c, separator c -> ~ In c (lit title)) ->
  (forall c, separator c -> ~ In c (@full_dur sample_imports (sample_item id title y d))) ->
  @well_separated sample_imports (sample_item id title y d).
Proof.
  intros Hn Hd c Hc. split; [exact (Hn c Hc)|]. split; [|split; [exact (Hd c Hc)|]];
    destruct Hc as [->| ->]; absent.
Defined.

Lemma selection_validator_witness :
  1 <= Z.of_nat (length sample_items)
  /\ @process_result sample_imports _ (lit "2") sample_items = Return 1
  /\ @process_result sample_imports _ (lit "0") sample_items
     = Raise (Exception (lit "Invalid selection"))
  /\ @process_result sample_imports _ (lit "4") sample_items
     = Raise (Exception (lit "Invalid selection"))
  /\ @process_result sample_imports _ (lit "17") sample_items
     = Raise (Exception (lit "Invalid selection"))
  /\ @process_result sample_imports _ (lit "two") sample_items
     = Raise (Exception (lit "Input a number"))
  /\ @process_result sample_imports _ (lit "QuIt") sample_items = Exit
  /\ @uni_isdigit sample_unicode_imports 178%N = true
  /\ @uni_decimal sample_unicode_imports 178%N = None
  /\ @process_result sample_unicode_imports _ [178%N] sample_items = Raise ValueError.
Proof.
  assert (HN : 1 <= Z.of_nat (length sample_items)) by (simpl; lia).
  destruct (@selection_validator sample_imports _ sample_items HN)
    as (H1 & H2 & H3 & H4 & H5 & H6 & _).
  destruct (@selection_validator sample_unicode_imports _ sample_items HN)
    as (_ & _ & _ & _ & _ & _ & _ & H8).
  destruct (H8 eq_refl eq_refl eq_refl) as (_ & _ & Hsup & _).
  split; [exact HN|]. split; [exact (H1 2 ltac:(simpl; lia))|].
  split; [exact H2|]. split; [exact H3|].
  split; [exact (H4 (lit "17") 17 eq_refl eq_refl eq_refl ltac:(simpl; lia)
                    ltac:(simpl; lia))|].
  split; [exact (H5 (lit "two") eq_refl eq_refl)|].
  split; [exact (H6 (lit "QuIt") eq_refl)|].
  split; [reflexivity|]. split; [reflexivity | exact Hsup].
Defined.

Lemma selection_lookup_in_bounds_witness :
  result (@interactive_selection sample_imports sample_world sample_items
            DownloadTypeEnum.track) = Return 1
  /\ 0 <= 1 < Z.of_nat (length sample_items)
  /\ exists item, py_index sample_items 1 = Return item
                  /\ nth_error sample_items (Z.to_nat 1) = Some item.
Proof.
  assert (H : result (@interactive_selection sample_imports sample_world sample_items
                        DownloadTypeEnum.track) = Return 1) by reflexivity.
  split; [exact H|].
  exact (proj1 (@selection_lookup_in_bounds sample_imports sample_orpheus sample_world)
           sample_items DownloadTypeEnum.track 1 H).
Defined.

Lemma candidate_rows_witness :
  nth_error sample_items 1 = Some (sample_item "t2" "Two" 2005 3661)
  /\ @free_of sample_imports TAB (sample_item "t2" "Two" 2005 3661)
  /\ @free_of sample_imports PIPE (sample_item "t2" "Two" 2005 3661)
  /\ nth_error (@choices sample_imports DownloadTypeEnum.track sample_items) 1
     = Some (lit "2.   Two                                      2005   01h:01m  E   HiFi"
             ++ [TAB] ++ lit "Two|First, Second|2005|01h:01m:01s|HiFi Plus|1")
  /\ count TAB (lit "2.   Two                                      2005   01h:01m  E   HiFi"
                ++ [TAB] ++ lit "Two|First, Second|2005|01h:01m:01s|HiFi Plus|1") = 1%nat
  /\ split PIPE (@hidden sample_imports (sample_item "t2" "Two" 2005 3661))
     = [lit "Two"; lit "First, Second"; lit "2005"; lit "01h:01m:01s"; lit "HiFi Plus";
        lit "1"]
  /\ @free_of sample_imports TAB sample_pipe_item
  /\ count TAB (@visible sample_imports DownloadTypeEnum.track 1 sample_pipe_item
                ++ [TAB] ++ @hidden sample_imports sample_pipe_item) = 1%nat.
Proof.
  assert (Ht : @free_of sample_imports TAB (sample_item "t2" "Two" 2005 3661))
    by (repeat split; absent).
  assert (Hp : @free_of sample_imports PIPE (sample_item "t2" "Two" 2005 3661))
    by (repeat split; absent).
  assert (Ht' : @free_of sample_imports TAB sample_pipe_item) by (repeat split; absent).
  destruct (proj2 (@candidate_rows sample_imports DownloadTypeEnum.track sample_items)
              1%nat (sample_item "t2" "Two" 2005 3661) eq_refl)
    as (Hrow & _ & Htab & Hfields & _).
  destruct (proj2 (@candidate_rows sample_imports DownloadTypeEnum.track [sample_pipe_item])
              0%nat sample_pipe_item eq_refl)
    as (_ & _ & Htab' & _).
  split; [reflexivity|]. split; [exact Ht|]. split; [exact Hp|]. split; [exact Hrow|].
  split; [exact (proj1 (Htab Ht))|]. split; [exact (Hfields Hp)|].
  split; [exact Ht' | exact (proj1 (Htab' Ht'))].
Defined.

Lemma candidate_rows_counterexample :
  @choices sample_imports DownloadTypeEnum.track [sample_pipe_item]
  = [lit "1.   A|B                                      2011   01m:01s  E   HiFi"
     ++ [TAB] ++ lit "A|B|First, Second|2011|01m:01s|HiFi Plus|1"]
  /\ split PIPE (@hidden sample_imports sample_pipe_item)
     = [lit "A"; lit "B"; lit "First, Second"; lit "2011"; lit "01m:01s"; lit "HiFi Plus";
        lit "1"]
  /\ length (split PIPE (@hidden sample_imports sample_pipe_item)) <> 6%nat
  /\ nth 0 (split PIPE (@hidden sample_imports sample_pipe_item)) [] <> name sample_pipe_item
  /\ nth_error (@choices sample_imports DownloadTypeEnum.track [sample_tab_item]) 0
     = Some (@visible sample_imports DownloadTypeEnum.track 1 sample_tab_item
             ++ [TAB] ++ @hidden sample_imports sample_tab_item)
  /\ count TAB (@visible sample_imports DownloadTypeEnum.track 1 sample_tab_item
                ++ [TAB] ++ @hidden sample_imports sample_tab_item) = 3%nat
  /\ count TAB (@visible sample_imports DownloadTypeEnum.track 1 sample_tab_item
                ++ [TAB] ++ @hidden sample_imports sample_tab_item) <> 1%nat
  /\ nth 0 (split TAB (@visible sample_imports DownloadTypeEnum.track 1 sample_tab_item
                       ++ [TAB] ++ @hidden sample_imports sample_tab_item)) []
     <> @visible sample_imports DownloadTypeEnum.track 1 sample_tab_item.
Proof.
  split; [reflexivity|]. split; [reflexivity|].
  split; [vm_compute; discriminate|]. split; [vm_compute; discriminate|].
  split; [reflexivity|]. split; [reflexivity|].
  split; vm_compute; discriminate.
Defined.

Lemma name_truncation_witness :
  layout_mode DownloadTypeEnum.track = detailed
  /\ (38 < length (name sample_long_item))%nat
  /\ @trunc_name sample_long_item
     = lit "An Exceedingly Long Title For A Short" ++ [ELLIPSIS]
  /\ length (trunc_name sample_long_item) = 38%nat
  /\ (length (name sample_zero_item) <= 38)%nat
  /\ ljust 40 (trunc_name sample_zero_item)
     = lit "Three                                   ".
Proof.
  assert (Hl : layout_mode DownloadTypeEnum.track = detailed) by reflexivity.
  assert (Hlong : (38 < length (name sample_long_item))%nat) by (vm_compute; lia).
  assert (Hshort : (length (name sample_zero_item) <= 38)%nat) by (vm_compute; lia).
  destruct (@name_truncation sample_imports DownloadTypeEnum.track 1 sample_long_item Hl)
    as (_ & H1 & _).
  destruct (@name_truncation sample_imports DownloadTypeEnum.track 3 sample_zero_item Hl)
    as (_ & _ & H2).
  destruct (H1 Hlong) as (Ha & Hb & _). destruct (H2 Hshort) as (_ & Hc & _).
  split; [exact Hl|]. split; [exact Hlong|]. split; [exact Ha|]. split; [exact Hb|].
  split; [exact Hshort | exact Hc].
Defined.

Lemma zero_like_absent_witness :
  @visible sample_imports DownloadTypeEnum.track 3
    (with_year_duration sample_zero_item (Some 0) (Some 0))
  = lit "3.   Three                                    ----   --:--    E   HiFi"
  /\ @hidden sample_imports (with_year_duration sample_zero_item (Some 0) (Some 0))
     = lit "Three|First, Second|||HiFi Plus|1"
  /\ @choice sample_imports DownloadTypeEnum.track 3
       (with_year_duration sample_zero_item (Some 0) (Some 0))
     = @choice sample_imports DownloadTypeEnum.track 3
         (with_year_duration sample_zero_item None None)
  /\ @visible sample_imports DownloadTypeEnum.track 2
       (with_year_duration (sample_item "t2" "Two" 2005 3661) (Some 0) (Some 3661))
     = lit "2.   Two                                      ----   01h:01m  E   HiFi"
  /\ @hidden sample_imports
       (with_year_duration (sample_item "t2" "Two" 2005 3661) (Some 2005) (Some 0))
     = lit "Two|First, Second|2005||HiFi Plus|1".
Proof.
  destruct (@zero_like_absent sample_imports DownloadTypeEnum.track 3 sample_zero_item)
    as (_ & _ & Hboth & _).
  destruct (Hboth (Some 0) (Some 0) (or_introl eq_refl) (or_introl eq_refl))
    as (Hsame & _ & _ & _ & _ & _ & Hhidden & Hdetailed).
  destruct (@zero_like_absent sample_imports DownloadTypeEnum.track 2
              (sample_item "t2" "Two" 2005 3661)) as (Hyear & Hdur & _).
  destruct (Hyear (Some 0) (or_introl eq_refl)) as (_ & _ & _ & _ & Hy).
  destruct (Hdur (Some 0) (or_introl eq_refl)) as (_ & _ & _ & _ & Hd & _).
  split; [exact (Hdetailed eq_refl)|]. split; [exact Hhidden|]. split; [exact Hsame|].
  split; [exact (Hy eq_refl) | exact Hd].
Defined.

Lemma zero_like_absent_counterexample :
  year sample_zero_item = Some 0 /\ duration sample_zero_item = Some 0
  /\ @visible sample_imports DownloadTypeEnum.artist 3 sample_zero_item = lit "3.   Three"
  /\ contains (lit "----") (@visible sample_imports DownloadTypeEnum.artist 3 sample_zero_item)
     = false
  /\ contains (lit "--:--") (@visible sample_imports DownloadTypeEnum.artist 3 sample_zero_item)
     = false.
Proof. repeat split. Defined.

Lemma netloc_resolution_witness :
  module_netloc_constants sample_orpheus
  = [(lit "deezer", lit "legacy")] ++ (lit "deezer\.com", lit "deezer")
    :: [(lit "custom\.org", lit "custom")]
  /\ @re_findall sample_imports (lit "deezer") (lit "www.deezer.com") <> []
  /\ @re_findall sample_imports (lit "deezer\.com") (lit "www.deezer.com") <> []
  /\ @locate_service sample_imports sample_orpheus (lit "www.deezer.com") = Some (lit "deezer")
  /\ @process_link sample_imports sample_orpheus [] sample_album_link
     = route sample_orpheus (lit "deezer") sample_album_link
         [[]; lit "album"; lit "12345"] []
  /\ @process_link sample_imports sample_orpheus [] (lit "https://example.net/album/1")
     = ([], Raise (Exception (lit "URL location " ++ quoted (lit "example.net")
                              ++ lit " is not found in modules!"))).
Proof.
  destruct (@netloc_resolution sample_imports sample_orpheus) as (H1 & H2 & H3 & H4).
  assert (Hlast : @locate_service sample_imports sample_orpheus (lit "www.deezer.com")
                  = Some (lit "deezer")).
  { apply (H1 (lit "www.deezer.com") [(lit "deezer", lit "legacy")] (lit "deezer\.com")
              (lit "deezer") [(lit "custom\.org", lit "custom")]).
    - reflexivity.
    - vm_compute. discriminate.
    - intros p' m' [E|[]]. injection E as <- <-. reflexivity. }
  split; [reflexivity|]. split; [vm_compute; discriminate|].
  split; [vm_compute; discriminate|]. split; [exact Hlast|]. split.
  - exact (H3 sample_album_link [] (lit "deezer") eq_refl Hlast ltac:(discriminate)).
  - apply (H4 (lit "https://example.net/album/1") [] eq_refl).
    apply (H2 (lit "example.net")).
    intros p m [E|[E|[E|[]]]]; injection E as <- <-; reflexivity.
Defined.

Lemma automatic_type_resolution_witness :
  @process_link sample_imports sample_orpheus [] sample_album_link
  = ([], Return [(lit "deezer",
                  [{| media_type := DownloadTypeEnum.album;
                      media_id := lit "12345";
                      mi_extra_kwargs := None |}])])
  /\ resolve_type sample_orpheus (lit "deezer")
       (lit "https://www.deezer.com/show/12345") [[]; lit "show"; lit "12345"]
       [(lit "deezer", [])]
     = ([EvPrint (lit "Invalid URL: " ++ quoted (lit "https://www.deezer.com/show/12345"))],
        Exit).
Proof.
  destruct (@automatic_type_resolution sample_imports sample_orpheus (lit "deezer")
              sample_album_link [[]; lit "album"; lit "12345"] [(lit "deezer", [])])
    as (_ & Hlast & _ & _).
  destruct (@automatic_type_resolution sample_imports sample_orpheus (lit "deezer")
              sample_album_link [[]; lit "album"; lit "12345"] [])
    as (_ & _ & _ & Hlink).
  destruct (@automatic_type_resolution sample_imports sample_orpheus (lit "deezer")
              (lit "https://www.deezer.com/show/12345") [[]; lit "show"; lit "12345"]
              [(lit "deezer", [])])
    as (_ & _ & Hnone & _).
  split.
  - rewrite (Hlink eq_refl eq_refl ltac:(discriminate) eq_refl eq_refl ltac:(simpl; lia)).
    apply (Hlast [(lit "track", DownloadTypeEnum.track)] (lit "album") DownloadTypeEnum.album
             [(lit "playlist", DownloadTypeEnum.playlist);
              (lit "artist", DownloadTypeEnum.artist)]).
    + reflexivity.
    + right. now left.
    + intros k t [E|[E|[]]]; injection E as <- <-; absent.
  - apply Hnone. intros k t [E|[E|[E|[E|[]]]]]; injection E as <- <-; absent.
Defined.

Lemma path_length_guard_witness :
  startswith sample_short_link (lit "http") = true
  /\ @locate_service sample_imports sample_orpheus
       (netloc (@urlparse sample_imports sample_short_link)) = Some (lit "deezer")
  /\ split SLASH (path (@urlparse sample_imports sample_short_link)) = [[]; lit "xyz"]
  /\ url_decoding (module_settings sample_orpheus (lit "deezer")) = ManualEnum.automatic
  /\ @process_link sample_imports sample_orpheus [] sample_short_link
     = ([EvPrint ([TAB] ++ lit "Invalid URL: " ++ quoted sample_short_link)], Exit)
  /\ split SLASH (path (@urlparse sample_imports (lit "https://custom.org/a/b/c")))
     = [[]; lit "a"; lit "b"; lit "c"]
  /\ url_decoding (module_settings sample_orpheus (lit "custom")) = ManualEnum.manual
  /\ @process_link sample_imports sample_orpheus [] (lit "https://custom.org/a/b/c")
     = ([EvLoadModule (lit "custom");
         EvCustomUrlParse (lit "custom") (lit "https://custom.org/a/b/c")],
        Return [(lit "custom", [sample_manual_id])]).
Proof.
  split; [reflexivity|]. split; [reflexivity|]. split; [reflexivity|].
  split; [reflexivity|]. split.
  - exact (proj1 (@path_length_guard sample_imports sample_orpheus sample_short_link
                    (lit "deezer") [] eq_refl eq_refl ltac:(discriminate))
             eq_refl ltac:(vm_compute; lia)).
  - split; [reflexivity|]. split; [reflexivity|].
    exact (proj2 (proj2 (@path_length_guard sample_imports sample_orpheus
                           (lit "https://custom.org/a/b/c") (lit "custom") []
                           eq_refl eq_refl ltac:(discriminate)) eq_refl)
             sample_manual_id eq_refl).
Defined.

Lemma path_length_guard_counterexample :
  startswith sample_short_manual_link (lit "http") = true
  /\ @locate_service sample_imports sample_orpheus
       (netloc (@urlparse sample_imports sample_short_manual_link)) = Some (lit "custom")
  /\ split SLASH (path (@urlparse sample_imports sample_short_manual_link)) = [[]; lit "x"]
  /\ url_decoding (module_settings sample_orpheus (lit "custom")) = ManualEnum.manual
  /\ @process_link sample_imports sample_orpheus [] sample_short_manual_link
     = ([EvLoadModule (lit "custom");
         EvCustomUrlParse (lit "custom") sample_short_manual_link],
        Return [(lit "custom", [sample_manual_id])])
  /\ result (@process_link sample_imports sample_orpheus [] sample_short_manual_link)
     <> Exit.
Proof. repeat split. vm_compute. discriminate. Defined.

Lemma request_aggregation_witness :
  result (@process_links sample_imports sample_orpheus [] sample_links)
  = Return [(lit "deezer",
             [{| media_type := DownloadTypeEnum.album; media_id := lit "12345";
                 mi_extra_kwargs := None |};
              {| media_type := DownloadTypeEnum.track; media_id := lit "2";
                 mi_extra_kwargs := None |};
              {| media_type := DownloadTypeEnum.playlist; media_id := lit "3";
                 mi_extra_kwargs := None |}]);
            (lit "custom", [sample_manual_id])]
  /\ @identifications_for sample_imports sample_orpheus (lit "deezer") sample_links
     = [{| media_type := DownloadTypeEnum.album; media_id := lit "12345";
           mi_extra_kwargs := None |};
        {| media_type := DownloadTypeEnum.track; media_id := lit "2";
           mi_extra_kwargs := None |};
        {| media_type := DownloadTypeEnum.playlist; media_id := lit "3";
           mi_extra_kwargs := None |}]
  /\ links_of sample_world (arguments (sample_args [lit "empty.txt"])) = []
  /\ @resolve_and_download sample_imports sample_orpheus sample_world
       (sample_args [lit "empty.txt"]) (lit "empty.txt") (lit "./downloads")
     = ([EvPrint (lit "No links given");
         EvDownload []
           [(ModuleModes.covers, None); (ModuleModes.lyrics, None);
            (ModuleModes.credits, None)]
           (lit "default") (lit "./downloads")],
        Return tt).
Proof.
  destruct (@request_aggregation sample_imports sample_orpheus sample_world
              (sample_args [lit "empty.txt"]) (lit "empty.txt") (lit "./downloads"))
    as (Horder & _ & Hnone).
  split; [reflexivity|]. split.
  - pose proof (Horder sample_links _ eq_refl (lit "deezer")) as H.
    destruct (@identifications_for sample_imports sample_orpheus (lit "deezer") sample_links)
      as [|x l]; [discriminate H|].
    vm_compute in H. injection H as <- <-. reflexivity.
  - split; [reflexivity|]. exact (Hnone eq_refl eq_refl).
Defined.

Lemma lucky_search_witness :
  search (load_module sample_orpheus (lit "deezer")) DownloadTypeEnum.track (lit "test") 1
  = [sample_item "t1" "One" 1999 205]
  /\ @search_and_select sample_imports sample_orpheus sample_world true (lit "deezer")
       DownloadTypeEnum.track (lit "test")
     = ([EvLoadModule (lit "deezer");
         EvSearch (lit "deezer") DownloadTypeEnum.track (lit "test") 1],
        Return [(lit "deezer",
                 [{| media_type := DownloadTypeEnum.track; media_id := lit "t1";
                     mi_extra_kwargs := Some [] |}])])
  /\ search (load_module sample_orpheus (lit "deezer")) DownloadTypeEnum.track
       (lit "nothing") 1 = []
  /\ result (@search_and_select sample_imports sample_orpheus sample_world true
               (lit "deezer") DownloadTypeEnum.track (lit "nothing"))
     = Raise (Exception (lit "No search results for track: nothing")).
Proof.
  destruct (@lucky_search sample_imports sample_orpheus sample_world (lit "deezer")
              DownloadTypeEnum.track (lit "test")) as (Htrace & _ & Hfirst & _).
  destruct (@lucky_search sample_imports sample_orpheus sample_world (lit "deezer")
              DownloadTypeEnum.track (lit "nothing")) as (_ & Hnone & _).
  destruct (Hfirst (sample_item "t1" "One" 1999 205) [] eq_refl) as (_ & Hres).
  split; [reflexivity|]. split.
  - unfold trace in Htrace. unfold result in Hres.
    destruct (@search_and_select sample_imports sample_orpheus sample_world true
                (lit "deezer") DownloadTypeEnum.track (lit "test")) as [log o].
    simpl in Htrace, Hres. now subst.
  - split; [reflexivity | exact (Hnone eq_refl)].
Defined.

(** * Further properties *)

(** ** Durations and quality labels *)

Lemma split_nonempty (sep : char) (s : pystr) : split sep s <> [].
Proof.
  induction s as [|c r IH]; simpl; [discriminate|].
  destruct (c =? sep)%N; [discriminate|]. now destruct (split sep r).
Qed.



Section Texts.
Context {imports : Imports}.


(** X2. The quality code of the table never exceeds 6 characters; it is
    "DA", "Mast" or "HiFi" in this order of precedence when the label
    contains "Dolby Atmos", "Master" or "HiFi", and the first 6
    characters of the label otherwise (the whole label when it has at
    most 6); the label is the first additional string, which the payload
    keeps whole, and "----" with an empty payload field when the item
    has no additional information. *)
Theorem quality_code (item : SearchResult) :
  (length (short_qual item) <= 6)%nat
  /\ (contains (lit "Dolby Atmos") (full_qual item) = true -> short_qual item = lit "DA")
  /\ (contains (lit "Dolby Atmos") (full_qual item) = false ->
      contains (lit "Master") (full_qual item) = true -> short_qual item = lit "Mast")
  /\ (contains (lit "Dolby Atmos") (full_qual item) = false ->
      contains (lit "Master") (full_qual item) = false ->
      contains (lit "HiFi") (full_qual item) = true -> short_qual item = lit "HiFi")
  /\ (contains (lit "Dolby Atmos") (full_qual item) = false ->
      contains (lit "Master") (full_qual item) = false ->
      contains (lit "HiFi") (full_qual item) = false ->
      short_qual item = firstn 6 (full_qual item)
      /\ ((length (full_qual item) <= 6)%nat -> short_qual item = full_qual item)
      /\ ((6 <= length (full_qual item))%nat -> length (short_qual item) = 6%nat))
  /\ (forall q rest, additional item = Some (q :: rest) ->
      full_qual item = q /\ h_qual item = q)
  /\ (truthy_list (additional item) = false ->
      full_qual item = lit "----" /\ short_qual item = lit "----" /\ h_qual item = []).
Proof.
  split; [|split; [|split; [|split; [|split; [|split]]]]].
  - unfold short_qual.
    destruct (contains _ _); [simpl; lia|].
    destruct (contains _ _); [simpl; lia|].
    destruct (contains _ _); [simpl; lia|].
    rewrite length_firstn. lia.
  - intro H. unfold short_qual. now rewrite H.
  - intros H1 H2. unfold short_qual. now rewrite H1, H2.
  - intros H1 H2 H3. unfold short_qual. now rewrite H1, H2, H3.
  - intros H1 H2 H3. unfold short_qual. rewrite H1, H2, H3.
    split; [reflexivity|]. split; intro Hlen.
    + now apply firstn_all2.
    + rewrite length_firstn. lia.
  - intros q rest E. unfold h_qual, full_qual, truthy_list. rewrite E. split; reflexivity.
  - intro H. unfold h_qual, short_qual, full_qual in *.
    destruct (additional item) as [[|q qs]|]; try discriminate; now rewrite ?H.
Qed.

End Texts.

(** ** The picker and the prompt *)

Lemma bind_run {A B} (m : M A) (k : A -> M B) (log : list event) (a : A) :
  m = (log, Return a) -> bind m k = (log ++ fst (k a), snd (k a)).
Proof. intros ->. simpl. now destruct (k a). Qed.

Lemma print_all_run (lines : list pystr) : print_all lines = (map EvPrint lines, Return tt).
Proof.
  induction lines as [|l r IH]; [reflexivity|].
  cbn [print_all]. unfold print, emit. rewrite (bind_run _ _ [EvPrint l] tt eq_refl).
  now rewrite IH.
Qed.

Lemma fallback_run (w : World) (hdr : pystr) (rows : list pystr) :
  fallback w hdr rows
  = (EvPrint hdr :: map EvPrint (map (fun c => hd [] (split TAB c)) rows)
       ++ [EvInput (lit "Selection: ")],
     Return (input w (lit "Selection: "))).
Proof.
  unfold fallback, print, emit.
  rewrite (bind_run _ _ [EvPrint hdr] tt eq_refl).
  rewrite (bind_run _ _ _ tt (print_all_run _)).
  reflexivity.
Qed.

Lemma lstrip_app_nonspace (x y : pystr) (c : char) :
  isspace_char c = false -> lstrip (x ++ c :: y) = lstrip x ++ c :: y.
Proof.
  intro Hc. induction x as [|a x IH]; simpl.
  - now rewrite Hc.
  - destruct (isspace_char a); [assumption | reflexivity].
Qed.

(** Stripping keeps everything up to a character that is not a blank,
    when the text does not start with a blank. *)
Lemma strip_keeps_prefix (d c : char) (a b : pystr) :
  isspace_char d = false -> isspace_char c = false ->
  strip (d :: a ++ c :: b) = d :: a ++ c :: rev (lstrip (rev b)).
Proof.
  intros Hd Hc. unfold strip.
  change (lstrip (d :: a ++ c :: b)) with (if isspace_char d then lstrip (a ++ c :: b)
                                          else d :: a ++ c :: b).
  rewrite Hd.
  change (d :: a ++ c :: b) with ((d :: a) ++ c :: b).
  rewrite rev_app_distr. cbn [rev]. rewrite <- app_assoc. cbn [app].
  rewrite lstrip_app_nonspace by assumption.
  rewrite rev_app_distr. cbn [rev]. rewrite rev_app_distr, rev_involutive.
  cbn [rev app]. now rewrite <- !app_assoc.
Qed.

Lemma ascii_digit_cases (c : char) :
  ascii_digit c = true ->
  (c = 48 \/ c = 49 \/ c = 50 \/ c = 51 \/ c = 52 \/ c = 53 \/ c = 54 \/ c = 55
   \/ c = 56 \/ c = 57)%N.
Proof.
  unfold ascii_digit. intro H. apply andb_true_iff in H as [H1 H2].
  apply N.leb_le in H1, H2. lia.
Qed.

Lemma ascii_digit_not_space (c : char) : ascii_digit c = true -> isspace_char c = false.
Proof.
  intro H. apply ascii_digit_cases in H.
  repeat (destruct H as [->|H]; [reflexivity|]). now subst.
Qed.

Section Picker.
Context {imports : Imports}.

Lemma choice_starts_with_index (query_type : DownloadTypeEnum.t) (index : Z)
    (item : SearchResult) :
  exists rest, choice query_type index item = str_int index ++ DOT :: rest.
Proof.
  unfold choice, visible, ljust. change (lit ".") with [DOT].
  destruct (layout_mode query_type); rewrite <- !app_assoc; eexists; reflexivity.
Qed.

(** The text before the first dot of a picked row is the row's number. *)
Lemma picked_row_number (query_type : DownloadTypeEnum.t) (index : Z)
    (item : SearchResult) (tail : pystr) :
  0 <= index ->
  hd [] (split DOT (strip (choice query_type index item ++ tail))) = str_int index.
Proof.
  intro Hi. destruct (choice_starts_with_index query_type index item) as (rest & ->).
  rewrite <- app_assoc. cbn [app].
  rewrite (str_int_nonneg index Hi).
  destruct (digits_spec index Hi) as (Hne & Hall & _).
  destruct (digits index) as [|d a]; [contradiction|].
  simpl in Hall. apply andb_true_iff in Hall as [Hd Ha].
  cbn [app]. rewrite strip_keeps_prefix by first [reflexivity | now apply ascii_digit_not_space].
  change (d :: a ++ DOT :: ?r) with ((d :: a) ++ DOT :: r).
  rewrite split_app_sep; [reflexivity|].
  intros [E|Hin].
  - subst d. discriminate Hd.
  - rewrite forallb_forall in Ha. apply Ha in Hin. discriminate Hin.
Qed.

Lemma picker_accepts (w : World) (items : list SearchResult)
    (query_type : DownloadTypeEnum.t) (out : pystr) (c : char) (s : pystr) :
  which_fzf w = true ->
  fzf_communicate w (header query_type) (join [NEWLINE] (choices query_type items))
  = Some (0, out) ->
  hd [] (split DOT (strip out)) = c :: s ->
  interactive_selection w items query_type
  = ([EvFzf (header query_type) (join [NEWLINE] (choices query_type items))],
     process_result (c :: s) items).
Proof.
  intros Hw Hf Hs. unfold interactive_selection, run_fzf. rewrite Hw, Hf.
  destruct out as [|o out]; [discriminate Hs|].
  destruct (strip (o :: out)) as [|r rs] eqn:E; [discriminate Hs|].
  cbn -[split process_result header choices join]. rewrite Hs. reflexivity.
Qed.

Lemma picker_declines (w : World) (items : list SearchResult)
    (query_type : DownloadTypeEnum.t) (rc : Z) (out : pystr) :
  which_fzf w = true ->
  fzf_communicate w (header query_type) (join [NEWLINE] (choices query_type items))
  = Some (rc, out) ->
  rc <> 0 \/ hd [] (split DOT (strip out)) = [] ->
  interactive_selection w items query_type
  = (EvFzf (header query_type) (join [NEWLINE] (choices query_type items))
       :: EvPrint (header query_type)
       :: map EvPrint (map (fun c => hd [] (split TAB c)) (choices query_type items))
       ++ [EvInput (lit "Selection: ")],
     process_result (input w (lit "Selection: ")) items).
Proof.
  intros Hw Hf Hbad. unfold interactive_selection, run_fzf. rewrite Hw, Hf.
  assert (Hfall : forall picked : option pystr,
             (picked = None \/ picked = Some []) ->
             bind (bind (emit (EvFzf (header query_type)
                                (join [NEWLINE] (choices query_type items))))
                     (fun _ => ret picked))
               (fun picked =>
                  bind match picked with
                       | Some (c :: s) => ret (c :: s)
                       | _ => fallback w (header query_type) (choices query_type items)
                       end
                    (fun selection_input => lift (process_result selection_input items)))
             = (EvFzf (header query_type) (join [NEWLINE] (choices query_type items))
                  :: EvPrint (header query_type)
                  :: map EvPrint (map (fun c => hd [] (split TAB c))
                                    (choices query_type items))
                  ++ [EvInput (lit "Selection: ")],
                process_result (input w (lit "Selection: ")) items)).
  { intros picked [-> | ->]; unfold emit, ret; cbn [bind app];
      rewrite (bind_run _ _ _ _ (fallback_run _ _ _)); unfold lift; cbn [fst snd];
      now rewrite app_nil_r. }
  destruct (rc =? 0) eqn:Erc; cbn [andb]; [|now apply Hfall; left].
  destruct (nonempty out) eqn:Eout; [|now apply Hfall; left].
  destruct Hbad as [Hrc|Hhd]; [apply Z.eqb_eq in Erc; contradiction|].
  destruct (nonempty (strip out)); [|now apply Hfall; left].
  rewrite Hhd. apply Hfall. now right.
Qed.

(** X3. Picking a row returns its position. When the picker ends with
    return code 0 and prints the row of the item at position [k] (with
    anything after it, such as the line end), [interactive_selection]
    returns [k] and neither prints the menu nor prompts. *)
Theorem picked_row_position (w : World) (items : list SearchResult)
    (query_type : DownloadTypeEnum.t) (k : nat) (item : SearchResult) (tail : pystr) :
  which_fzf w = true ->
  nth_error items k = Some item ->
  fzf_communicate w (header query_type) (join [NEWLINE] (choices query_type items))
  = Some (0, choice query_type (Z.of_nat k + 1) item ++ tail) ->
  nth_error (choices query_type items) k = Some (choice query_type (Z.of_nat k + 1) item)
  /\ interactive_selection w items query_type
     = ([EvFzf (header query_type) (join [NEWLINE] (choices query_type items))],
        Return (Z.of_nat k)).
Proof.
  intros Hw Hk Hf. split.
  - unfold choices. rewrite (choices_from_nth query_type 1 items k item Hk).
    do 2 f_equal. lia.
  - assert (Hlen : (k < length items)%nat) by (apply nth_error_Some; congruence).
    pose proof (picked_row_number query_type (Z.of_nat k + 1) item tail ltac:(lia)) as Hn.
    destruct (str_int (Z.of_nat k + 1)) as [|c s] eqn:E;
      [now apply str_int_nonempty in E|].
    rewrite (picker_accepts w items query_type _ c s Hw Hf Hn), <- E.
    rewrite process_result_str_int by lia.
    replace (Z.of_nat k + 1 - 1 <? 0) with false by (symmetry; apply Z.ltb_ge; lia).
    rewrite geb_false by lia. simpl. do 2 f_equal. lia.
Qed.

(** X4. The prompt is the fallback of the picker. Without a picker, or
    when it cannot be run, ends with a return code other than 0, or
    prints nothing before a first dot (no output, blanks only, a leading
    dot), the header and the first tab-separated part of every row are
    printed and the typed line is validated; when the picker ends with
    return code 0 and prints some text before a first dot, that text is
    validated and nothing is printed or asked. *)
Theorem picker_or_prompt (w : World) (items : list SearchResult)
    (query_type : DownloadTypeEnum.t) :
  let hdr := header query_type in
  let rows := choices query_type items in
  let menu := EvPrint hdr :: map EvPrint (map (fun c => hd [] (split TAB c)) rows)
              ++ [EvInput (lit "Selection: ")] in
  let typed := process_result (input w (lit "Selection: ")) items in
  (which_fzf w = false -> interactive_selection w items query_type = (menu, typed))
  /\ (which_fzf w = true -> fzf_communicate w hdr (join [NEWLINE] rows) = None ->
      interactive_selection w items query_type
      = (EvFzf hdr (join [NEWLINE] rows) :: menu, typed))
  /\ (forall rc out,
        which_fzf w = true -> fzf_communicate w hdr (join [NEWLINE] rows) = Some (rc, out) ->
        rc <> 0 \/ hd [] (split DOT (strip out)) = [] ->
        interactive_selection w items query_type
        = (EvFzf hdr (join [NEWLINE] rows) :: menu, typed))
  /\ (forall out c s,
        which_fzf w = true -> fzf_communicate w hdr (join [NEWLINE] rows) = Some (0, out) ->
        hd [] (split DOT (strip out)) = c :: s ->
        interactive_selection w items query_type
        = ([EvFzf hdr (join [NEWLINE] rows)], process_result (c :: s) items)).
Proof.
  intros hdr rows menu typed. split; [|split; [|split]].
  - intro Hw. unfold interactive_selection, run_fzf. rewrite Hw.
    unfold ret. cbn [bind app].
    rewrite (bind_run _ _ _ _ (fallback_run _ _ _)). unfold lift. cbn [fst snd].
    now rewrite app_nil_r.
  - intros Hw Hf. unfold interactive_selection, run_fzf. fold hdr rows. rewrite Hw, Hf.
    unfold emit, ret. cbn [bind app].
    rewrite (bind_run _ _ _ _ (fallback_run _ _ _)). unfold lift. cbn [fst snd].
    now rewrite app_nil_r.
  - intros rc out Hw Hf Hbad. exact (picker_declines w items query_type rc out Hw Hf Hbad).
  - intros out c s Hw Hf Hs. exact (picker_accepts w items query_type out c s Hw Hf Hs).
Qed.

Lemma first_parts_visible (query_type : DownloadTypeEnum.t) (index : Z)
    (items : list SearchResult) :
  Forall well_separated items ->
  map (fun c => hd [] (split TAB c)) (choices_from query_type index items)
  = visible_from query_type index items.
Proof.
  intro H. revert index. induction H as [|item rest Hitem _ IH]; intro index;
    [reflexivity|].
  cbn [choices_from visible_from map]. rewrite IH. f_equal.
  unfold choice. cbn [app]. rewrite split_app_sep; [reflexivity|].
  apply visible_no_separator; [assumption | now left].
Qed.

(** X5. The menu of the prompt shows the visible halves only. For items
    whose texts contain neither tab nor pipe, the prompt prints the
    header and then exactly the visible half of each row, in order, and
    asks for the selection; the hidden payload is not printed. *)
Theorem prompt_menu (w : World) (items : list SearchResult)
    (query_type : DownloadTypeEnum.t) :
  Forall well_separated items ->
  which_fzf w = false ->
  trace (interactive_selection w items query_type)
  = EvPrint (header query_type) :: map EvPrint (visible_from query_type 1 items)
    ++ [EvInput (lit "Selection: ")]
  /\ length (visible_from query_type 1 items) = length items.
Proof.
  intros Hitems Hw. split.
  - unfold interactive_selection, run_fzf. rewrite Hw. unfold ret. cbn [bind app].
    rewrite (bind_run _ _ _ _ (fallback_run _ _ _)). unfold lift, trace. cbn [fst snd].
    rewrite app_nil_r. unfold choices. now rewrite first_parts_visible.
  - generalize 1. induction items as [|item rest IH]; intro index; [reflexivity|].
    inversion Hitems; subst. cbn [visible_from length]. f_equal. now apply IH.
Qed.

End Picker.

(** ** Path segments *)

Lemma split_app (sep : char) (a b : pystr) :
  split sep (a ++ sep :: b) = split sep a ++ split sep b.
Proof.
  induction a as [|c a IH]; simpl.
  - now rewrite N.eqb_refl.
  - destruct (c =? sep)%N; rewrite IH; [reflexivity|].
    destruct (split sep a) as [|h t] eqn:E; [now apply split_nonempty in E | reflexivity].
Qed.

Lemma last_occurrence (sep : char) (s : pystr) :
  In sep s -> exists p l, s = p ++ sep :: l /\ ~ In sep l.
Proof.
  induction s as [|c r IH]; [intros []|]. intro H.
  destruct (in_dec N.eq_dec sep r) as [Hr|Hr].
  - destruct (IH Hr) as (p & l & -> & Hl). now exists (c :: p), l.
  - destruct H as [->|H]; [|contradiction]. now exists [], r.
Qed.

(** Either the text has no separator and is its only part, or its last
    part is what follows the last separator. *)
Lemma split_last_cases (sep : char) (s : pystr) :
  (~ In sep s /\ split sep s = [s])
  \/ exists p l, s = p ++ sep :: l /\ ~ In sep l /\ split sep s = split sep p ++ [l].
Proof.
  destruct (in_dec N.eq_dec sep s) as [H|H].
  - right. destruct (last_occurrence sep s H) as (p & l & -> & Hl).
    exists p, l. repeat split; try assumption.
    now rewrite split_app, (split_no_sep sep l Hl).
  - left. split; [assumption | now apply split_no_sep].
Qed.

Lemma split_length_one (sep : char) (s : pystr) :
  length (split sep s) = 1%nat -> ~ In sep s.
Proof.
  destruct (split_last_cases sep s) as [[H _]|(p & l & _ & _ & E)]; [tauto|].
  rewrite E, length_app. simpl. intro Hlen.
  destruct (split sep p) eqn:Ep; [now apply split_nonempty in Ep | simpl in Hlen; lia].
Qed.

Lemma last_In {A} (l : list A) (x : A) : In (last (x :: l) x) (x :: l).
Proof.
  revert x; induction l as [|y l IH]; intro x; [now left|].
  change (last (x :: y :: l) x) with (last (y :: l) x).
  right. destruct l as [|z l]; [now left|].
  change (last (y :: z :: l) x) with (last (z :: l) x).
  specialize (IH y). change (last (y :: z :: l) y) with (last (z :: l) y) in IH.
  replace (last (z :: l) x) with (last (z :: l) y); [assumption|].
  clear. revert z; induction l as [|w l IH]; intro z; [reflexivity|].
  change (last (z :: w :: l) ?d) with (last (w :: l) d). apply IH.
Qed.

Section Routes.
Context {imports : Imports}.
Variable orpheus : Orpheus.

(** X6. With the default rules the media type follows the order of the
    rules, not the order of the path segments: a path with a segment
    "artist" is an artist, otherwise one with "playlist" a playlist,
    otherwise one with "album" an album, otherwise one with "track" a
    track, and a path with none of them is refused with "Invalid URL". *)
Theorem default_rule_precedence (service_name link : pystr) (components : list pystr)
    (media_to_download : batch) :
  url_constants (module_settings orpheus service_name) = None
  \/ url_constants (module_settings orpheus service_name) = Some [] ->
  let found t :=
    ([], Return (dict_append media_to_download service_name
                   {| media_type := t; media_id := last components [];
                      mi_extra_kwargs := None |})) in
  resolve_type orpheus service_name link components media_to_download
  = if str_in (lit "artist") components then found DownloadTypeEnum.artist
    else if str_in (lit "playlist") components then found DownloadTypeEnum.playlist
    else if str_in (lit "album") components then found DownloadTypeEnum.album
    else if str_in (lit "track") components then found DownloadTypeEnum.track
    else ([EvPrint (lit "Invalid URL: " ++ quoted link)], Exit).
Proof.
  intros H found. unfold resolve_type, effective_url_constants.
  replace (match url_constants (module_settings orpheus service_name) with
           | Some (e :: r) => e :: r
           | _ => default_url_constants
           end) with default_url_constants by (destruct H as [-> | ->]; reflexivity).
  unfold type_matches, default_url_constants. cbn [filter fst].
  destruct (str_in (lit "track") components), (str_in (lit "album") components),
    (str_in (lit "playlist") components), (str_in (lit "artist") components);
    reflexivity.
Qed.

Lemma type_matches_sound (rules : list (pystr * DownloadTypeEnum.t))
    (components : list pystr) (t : DownloadTypeEnum.t) :
  In t (type_matches rules components) ->
  exists key, In (key, t) rules /\ In key components.
Proof.
  unfold type_matches. intro H. apply in_map_iff in H as ([key t'] & E & H).
  simpl in E. subst t'. apply filter_In in H as [H1 H2]. simpl in H2.
  exists key. split; [assumption | now apply str_in_In].
Qed.

(** X7. An identification produced by automatic routing comes from a
    path with at least two slashes: its identifier is the text after the
    last slash and contains no slash, it carries no extra arguments, and
    its type is bound to a rule key that is one of the path segments. *)
Theorem identifier_from_path (service_name link : pystr) (d d' : batch) :
  startswith link (lit "http") = true ->
  locate_service orpheus (netloc (urlparse link)) = Some service_name ->
  service_name <> [] ->
  url_decoding (module_settings orpheus service_name) = ManualEnum.automatic ->
  result (process_link orpheus d link) = Return d' ->
  exists x before between,
    d' = dict_append (ensure_key d service_name) service_name x
    /\ path (urlparse link) = before ++ [SLASH] ++ between ++ [SLASH] ++ media_id x
    /\ ~ In SLASH (media_id x)
    /\ mi_extra_kwargs x = None
    /\ exists key,
         In (key, media_type x) (effective_url_constants (module_settings orpheus service_name))
         /\ In key (split SLASH (path (urlparse link))).
Proof.
  intros Hs Hl Hm Hd.
  rewrite (process_link_located orpheus link d service_name Hs Hl Hm).
  unfold route. rewrite Hd. unfold route_automatic.
  destruct (length (split SLASH (path (urlparse link))) <=? 2)%nat eqn:Elen;
    [discriminate|].
  apply Nat.leb_gt in Elen. unfold resolve_type.
  destruct (type_matches _ _) as [|t ts] eqn:Et; [discriminate|].
  intro H. injection H as <-.
  destruct (split_last_cases SLASH (path (urlparse link)))
    as [[_ E]|(p & l & Ep & Hl' & E)]; [rewrite E in Elen; simpl in Elen; lia|].
  destruct (split_last_cases SLASH p) as [[_ E']|(p1 & p2 & Ep1 & _ & _)].
  { rewrite E, E' in Elen. simpl in Elen. lia. }
  eexists; exists p1, p2. split; [reflexivity|]. cbn [media_id media_type mi_extra_kwargs].
  rewrite E at 1 2. rewrite last_last.
  split; [rewrite Ep, Ep1, <- !app_assoc; reflexivity|].
  split; [assumption|]. split; [reflexivity|].
  apply type_matches_sound. rewrite Et. apply last_In.
Qed.

Lemma keys_dict_append {V} (d : list (pystr * list V)) (k : pystr) (x : V) :
  map fst (dict_append d k x) = map fst d.
Proof.
  induction d as [|[k' v] r IH]; [reflexivity|]. simpl.
  destruct (str_eqb k' k); simpl; now rewrite ?IH.
Qed.

Lemma dict_get_None_keys {V} (d : list (pystr * V)) (k : pystr) :
  dict_get d k = None -> ~ In k (map fst d).
Proof.
  induction d as [|[k' v] r IH]; simpl; [tauto|].
  destruct (str_eqb k' k) eqn:E; [discriminate|].
  intros H [E'|Hin]; [subst; now rewrite str_eqb_refl in E | now apply IH].
Qed.

Lemma keys_dict_set_new {V} (d : list (pystr * V)) (k : pystr) (v : V) :
  dict_get d k = None -> map fst (dict_set d k v) = map fst d ++ [k].
Proof.
  induction d as [|[k' v'] r IH]; simpl; [reflexivity|].
  destruct (str_eqb k' k); [discriminate|]. intro H. simpl. now rewrite IH.
Qed.

Lemma keys_ensure_append (d : batch) (m : pystr) (x : MediaIdentification) :
  NoDup (map fst d) -> NoDup (map fst (dict_append (ensure_key d m) m x)).
Proof.
  intro H. rewrite keys_dict_append. unfold ensure_key, dict_mem.
  destruct (dict_get d m) eqn:E; [assumption|].
  rewrite keys_dict_set_new by assumption.
  apply NoDup_app; [assumption | repeat constructor; intros [] |].
  intros k Hk [<-|[]]. now apply dict_get_None_keys in E.
Qed.

Lemma process_links_keys (links : list pystr) (d b : batch) :
  result (process_links orpheus d links) = Return b ->
  NoDup (map fst d) -> NoDup (map fst b).
Proof.
  revert d; induction links as [|link rest IH]; intros d H Hd.
  - injection H as <-. assumption.
  - cbn [process_links] in H. apply result_bind in H as (d1 & H1 & H).
    destruct (process_link_shape orpheus link d d1 H1) as (m & x & Hshape).
    rewrite (Hshape d) in H1. injection H1 as <-.
    apply (IH _ H). now apply keys_ensure_append.
Qed.

Lemma dict_get_In {V} (d : list (pystr * V)) (k : pystr) (v : V) :
  NoDup (map fst d) -> In (k, v) d -> dict_get d k = Some v.
Proof.
  induction d as [|[k' v'] r IH]; simpl; [tauto|].
  intros Hn [E|Hin].
  - injection E as -> ->. now rewrite str_eqb_refl.
  - inversion Hn as [|? ? Hk Hr]; subst.
    destruct (str_eqb k' k) eqn:E; [|now apply IH].
    apply str_eqb_eq in E. subst k'. exfalso. apply Hk.
    apply in_map_iff. now exists (k, v).
Qed.

(** X8. The batch built from a list of links keeps its invariant: no
    module name occurs twice, and every module in it has a non-empty
    sequence, which is the sequence of the identifications of its links. *)
Theorem batch_invariant (links : list pystr) (b : batch) :
  result (process_links orpheus [] links) = Return b ->
  NoDup (map fst b)
  /\ forall service_name sequence,
       In (service_name, sequence) b ->
       sequence <> [] /\ sequence = identifications_for orpheus service_name links.
Proof.
  intro H. assert (Hn : NoDup (map fst b)) by (apply (process_links_keys links [] b H); constructor).
  split; [assumption|]. intros m l Hin.
  pose proof (dict_get_In b m l Hn Hin) as Hg.
  rewrite (process_links_sequences orpheus links [] b H m) in Hg. simpl in Hg.
  destruct (identifications_for orpheus m links); [discriminate|].
  injection Hg as <-. split; [discriminate | reflexivity].
Qed.

Lemma bind_assoc {A B C} (m : M A) (f : A -> M B) (g : B -> M C) :
  bind (bind m f) g = bind m (fun a => bind (f a) g).
Proof.
  destruct m as [log [a| |]]; try reflexivity. simpl.
  destruct (f a) as [log' [b| |]]; try reflexivity. simpl.
  destruct (g b) as [log'' o]. now rewrite app_assoc.
Qed.

Lemma bind_ret_l {A B} (a : A) (k : A -> M B) : bind (ret a) k = k a.
Proof. unfold ret. simpl. now destruct (k a). Qed.

Lemma bind_ext {A B} (m : M A) (f g : A -> M B) :
  (forall a, f a = g a) -> bind m f = bind m g.
Proof. intro H. destruct m as [log [a| |]]; simpl; now rewrite ?H. Qed.

Lemma process_links_app (l1 l2 : list pystr) (d : batch) :
  process_links orpheus d (l1 ++ l2)
  = bind (process_links orpheus d l1) (fun d' => process_links orpheus d' l2).
Proof.
  revert d; induction l1 as [|link rest IH]; intro d.
  - cbn [app process_links]. now rewrite bind_ret_l.
  - cbn [app process_links]. rewrite bind_assoc. apply bind_ext. intro d'. apply IH.
Qed.

End Routes.

(** ** Whole runs *)

Lemma trace_bind {A B} (m : M A) (k : A -> M B) :
  trace (bind m k)
  = trace m ++ match result m with Return a => trace (k a) | _ => [] end.
Proof.
  unfold trace, result. destruct m as [log [a| |]]; simpl;
    [now destruct (k a) | now rewrite app_nil_r..].
Qed.

Lemma result_bind_cases {A B} (m : M A) (k : A -> M B) :
  result (bind m k)
  = match result m with
    | Return a => result (k a)
    | Raise e => Raise e
    | Exit => Exit
    end.
Proof.
  unfold result. destruct m as [log [a| |]]; simpl; [now destruct (k a) | reflexivity..].
Qed.

Lemma avoids_bind {A B} (p : event -> bool) (m : M A) (k : A -> M B) :
  avoids p m -> (forall a, avoids p (k a)) -> avoids p (bind m k).
Proof.
  unfold avoids. intros Hm Hk. rewrite trace_bind, forallb_app, Hm.
  destruct (result m); [apply Hk | reflexivity..].
Qed.

Lemma avoids_weaken {A} (p q : event -> bool) (m : M A) :
  (forall e, p e = true -> q e = true) -> avoids q m -> avoids p m.
Proof.
  unfold avoids. intros Hpq H. rewrite forallb_forall in *. intros e He.
  specialize (H e He). destruct (p e) eqn:E; [|reflexivity].
  apply Hpq in E. now rewrite E in H.
Qed.

Lemma download_is_outward (e : event) : is_download e = true -> is_outward e = true.
Proof. now destruct e. Qed.

Lemma avoids_print_all (p : event -> bool) (lines : list pystr) :
  (forall l, p (EvPrint l) = false) -> avoids p (print_all lines).
Proof.
  intro Hp. unfold avoids. rewrite print_all_run. unfold trace. simpl.
  induction lines as [|l r IH]; [reflexivity|]. simpl. now rewrite Hp, IH.
Qed.

Ltac avoid_with known :=
  repeat first
    [ known
    | reflexivity
    | apply avoids_bind; [|intro]
    | apply avoids_print_all; reflexivity
    | match goal with
      | |- avoids _ (if ?c then _ else _) => destruct c
      | |- avoids _ (match ?x with _ => _ end) => destruct x
      end ].

Ltac avoid := avoid_with fail.

Section Runs.
Context {imports : Imports}.
Variable orpheus : Orpheus.
Variable w : World.

Lemma avoids_interactive_selection (items : list SearchResult)
    (query_type : DownloadTypeEnum.t) :
  avoids is_outward (interactive_selection w items query_type).
Proof. unfold interactive_selection, run_fzf, fallback. avoid. Qed.

Lemma avoids_search_and_select (lucky_mode : bool) (modulename : pystr)
    (query_type : DownloadTypeEnum.t) (query : pystr) :
  avoids is_download (search_and_select orpheus w lucky_mode modulename query_type query).
Proof.
  unfold search_and_select.
  avoid_with ltac:(apply (avoids_weaken _ _ _ download_is_outward),
                   avoids_interactive_selection).
Qed.

Lemma avoids_search_mode (orpheus_mode : pystr) (args : list pystr) :
  avoids is_download (search_mode orpheus w orpheus_mode args).
Proof. unfold search_mode. avoid_with ltac:(apply avoids_search_and_select). Qed.

Lemma avoids_download_mode (args : list pystr) :
  avoids is_outward (download_mode orpheus args).
Proof. unfold download_mode. avoid. Qed.

Lemma avoids_process_link (d : batch) (link : pystr) :
  avoids is_download (process_link orpheus d link).
Proof.
  unfold process_link, route, route_manual, route_automatic, resolve_type. avoid.
Qed.

Lemma avoids_process_links (links : list pystr) (d : batch) :
  avoids is_download (process_links orpheus d links).
Proof.
  revert d; induction links as [|link rest IH]; intro d; [reflexivity|].
  cbn [process_links]. apply avoids_bind; [apply avoids_process_link | intro; apply IH].
Qed.

(** X9. The links are processed up to the first one that fails: the run
    ends with that link's failure and the later links are not examined,
    whatever they are. *)
Theorem first_failure (l1 l2 : list pystr) (bad : pystr) (d d1 : batch) :
  result (process_links orpheus d l1) = Return d1 ->
  (forall d2, result (process_link orpheus d1 bad) <> Return d2) ->
  process_links orpheus d (l1 ++ bad :: l2)
  = (trace (process_links orpheus d l1) ++ trace (process_link orpheus d1 bad),
     result (process_link orpheus d1 bad)).
Proof.
  intros H1 Hbad. rewrite process_links_app.
  destruct (process_links orpheus d l1) as [log o] eqn:E1.
  unfold result in H1. simpl in H1. subst o.
  rewrite (bind_run _ _ log d1 eq_refl). cbn [process_links]. unfold trace at 1. cbn [fst].
  destruct (process_link orpheus d1 bad) as [log' [d2| |]];
    [now specialize (Hbad d2) | reflexivity..].
Qed.

Lemma hand_off_run (args : Args) (path : pystr) (b : batch) :
  hand_off orpheus args path b
  = ((if nonempty b then [] else [EvPrint (lit "No links given")])
       ++ [EvDownload b (tpm orpheus args) (lower (separatedownload args)) path],
     Return tt).
Proof. unfold hand_off. now destruct (nonempty b). Qed.

Lemma resolve_and_download_shape (args : Args) (orpheus_mode path : pystr) :
  exists (resolved : M (option batch)),
    avoids is_download resolved
    /\ resolve_and_download orpheus w args orpheus_mode path
       = bind resolved (fun r => match r with
                                 | Some b => hand_off orpheus args path b
                                 | None => ret tt
                                 end).
Proof.
  unfold resolve_and_download. eexists. split; [|reflexivity].
  destruct (_ || _); [apply avoids_search_mode|].
  destruct (str_eqb _ _).
  - apply avoids_bind; [|reflexivity].
    apply (avoids_weaken _ _ _ download_is_outward), avoids_download_mode.
  - apply avoids_bind; [apply avoids_process_links | reflexivity].
Qed.

Lemma resolve_and_download_last (args : Args) (orpheus_mode path : pystr) :
  exists before,
    forallb (fun e => negb (is_download e)) before = true
    /\ (trace (resolve_and_download orpheus w args orpheus_mode path) = before
        \/ exists b,
             trace (resolve_and_download orpheus w args orpheus_mode path)
             = before ++ [EvDownload b (tpm orpheus args) (lower (separatedownload args)) path]
             /\ result (resolve_and_download orpheus w args orpheus_mode path) = Return tt).
Proof.
  destruct (resolve_and_download_shape args orpheus_mode path) as (m & Hm & ->).
  rewrite trace_bind, result_bind_cases. unfold avoids in Hm.
  destruct (result m) as [[b|]| |].
  - rewrite hand_off_run. unfold trace at 2, result. cbn [fst snd].
    exists (trace m ++ if nonempty b then [] else [EvPrint (lit "No links given")]).
    split.
    + rewrite forallb_app, Hm. now destruct (nonempty b).
    + right. exists b. now rewrite <- app_assoc.
  - exists (trace m). split; [assumption|]. left. apply app_nil_r.
  - exists (trace m). split; [assumption|]. left. apply app_nil_r.
  - exists (trace m). split; [assumption|]. left. apply app_nil_r.
Qed.

Lemma avoids_settings_mode (args : list pystr) : avoids is_download (settings_mode orpheus args).
Proof. unfold settings_mode. avoid. Qed.

Lemma avoids_sessions_mode (args : list pystr) : avoids is_download (sessions_mode orpheus args).
Proof. unfold sessions_mode. avoid. Qed.

(** X10. The hand-over to the download pipeline is the last thing [main]
    does and happens at most once, with the overrides and the path
    computed from the arguments: a run that raises or exits (a failed
    link, an unknown module, no search result, an invalid selection, a
    quit) hands over nothing. *)
Theorem download_is_last (args : Args) :
  exists before,
    forallb (fun e => negb (is_download e)) before = true
    /\ (trace (main orpheus w args) = before
        \/ exists b path,
             trace (main orpheus w args)
             = before ++ [EvDownload b (tpm orpheus args) (lower (separatedownload args)) path]
             /\ result (main orpheus w args) = Return tt).
Proof.
  unfold main. destruct (arguments args) as [|a0 rest].
  { exists [EvPrintHelp]. split; [reflexivity | now left]. }
  destruct (str_eqb (lower a0) (lit "settings")).
  { exists (trace (settings_mode orpheus (a0 :: rest))).
    split; [apply avoids_settings_mode | now left]. }
  destruct (str_eqb (lower a0) (lit "sessions")).
  { exists (trace (sessions_mode orpheus (a0 :: rest))).
    split; [apply avoids_sessions_mode | now left]. }
  match goal with |- context [py_index ?p (-1)] => set (path0 := p) end.
  destruct (py_index path0 (-1)) as [final| |] eqn:Ef;
    try (exists []; split; [reflexivity | now left]).
  unfold lift. cbn [bind app].
  match goal with |- context [EvMakedirs ?p] => set (path := p) end.
  destruct (resolve_and_download_last args (lower a0) path) as (before & Hb & H).
  rewrite (bind_run _ _ [EvMakedirs path] tt eq_refl).
  destruct (os_makedirs w path) as [[]| |];
    try (exists [EvMakedirs path]; split; [reflexivity | now left]).
  destruct (resolve_and_download orpheus w args (lower a0) path) as [log o].
  unfold trace, result in *. cbn [fst snd app] in *.
  exists (EvMakedirs path :: before). split; [exact Hb|].
  destruct H as [->|(b & -> & ->)]; [now left|]. right. now exists b, path.
Qed.

End Runs.

(** ** Modes of [main] *)

Lemma py_index_last {A} (l : list A) (x : A) : py_index (l ++ [x]) (-1) = Return x.
Proof.
  unfold py_index. rewrite length_app. cbn [length].
  replace (-1 <? 0) with true by reflexivity.
  replace (0 <=? Z.of_nat (length l + 1) + -1) with true by (symmetry; apply Z.leb_le; lia).
  replace (Z.of_nat (length l + 1) + -1 <? Z.of_nat (length l + 1)) with true
    by (symmetry; apply Z.ltb_lt; lia).
  cbn [andb]. replace (Z.to_nat (Z.of_nat (length l + 1) + -1)) with (length l) by lia.
  rewrite nth_error_app2 by lia. now rewrite Nat.sub_diag.
Qed.


Section Modes.
Context {imports : Imports}.
Variable orpheus : Orpheus.
Variable w : World.

(** X11. The download directory. Outside the settings and sessions
    modes, [main] takes the output argument when it is given and not
    empty and the configured download path otherwise, and removes one
    trailing slash. When the path is empty the run raises an IndexError
    before anything else happens. Otherwise the directory is created
    first: when that fails the run ends with the error, as it always
    does with FileNotFoundError for the path "/" that the removal leaves
    empty; when it succeeds the requests are resolved with this path. *)
Theorem download_directory (args : Args) (a0 : pystr) (rest : list pystr) :
  arguments args = a0 :: rest ->
  str_in (lower a0) [lit "settings"; lit "sessions"] = false ->
  chosen_path orpheus args
  = match output args with
    | Some (c :: s) => c :: s
    | _ => download_path (settings orpheus)
    end
  /\ (chosen_path orpheus args = [] -> main orpheus w args = ([], Raise IndexError))
  /\ (chosen_path orpheus args = [SLASH] ->
      main orpheus w args = ([EvMakedirs []], Raise FileNotFoundError))
  /\ (forall base c,
        chosen_path orpheus args = base ++ [c] ->
        let path := if (c =? SLASH)%N then base else base ++ [c] in
        (path <> [] -> makedirs w path = Return tt ->
         main orpheus w args
         = (EvMakedirs path :: trace (resolve_and_download orpheus w args (lower a0) path),
            result (resolve_and_download orpheus w args (lower a0) path)))
        /\ (forall e, path <> [] -> makedirs w path = Raise e ->
            main orpheus w args = ([EvMakedirs path], Raise e))
        /\ (path <> [] -> makedirs w path = Exit ->
            main orpheus w args = ([EvMakedirs path], Exit))).
Proof.
  intros Ha Hmode. unfold str_in in Hmode. simpl in Hmode.
  apply orb_false_iff in Hmode as [H1 Hmode]. apply orb_false_iff in Hmode as [H2 _].
  split; [reflexivity|]. unfold main. rewrite Ha, H1, H2.
  fold (chosen_path orpheus args). split; [|split].
  - intros ->. reflexivity.
  - intros ->. reflexivity.
  - intros base c ->. rewrite py_index_last.
    change (lift (Return c)) with (@ret char c). rewrite bind_ret_l.
    rewrite removelast_last.
    set (path := if (c =? SLASH)%N then base else base ++ [c]).
    rewrite (bind_run _ _ [EvMakedirs path] tt eq_refl).
    assert (Hos : path <> [] -> os_makedirs w path = makedirs w path)
      by (unfold os_makedirs; destruct path; [contradiction | reflexivity]).
    split; [|split].
    + intros Hp Hm. rewrite (Hos Hp), Hm. unfold lift.
      rewrite (bind_run _ _ [] tt eq_refl). cbn [app fst snd].
      now destruct (resolve_and_download _ _ _ _ _).
    + intros e Hp Hm. rewrite (Hos Hp), Hm. reflexivity.
    + intros Hp Hm. rewrite (Hos Hp), Hm. reflexivity.
Qed.


(** X13. What a search hands on. When the search-and-select step
    returns, its batch has one entry, for the searched module, with one
    identification: that of one of the search results (the first one in
    lucky mode), with the type of the query and the result's extra
    arguments. *)
Theorem search_picks_a_result (lucky_mode : bool) (modulename : pystr)
    (query_type : DownloadTypeEnum.t) (query : pystr) (b : batch) :
  let items :=
    search (load_module orpheus modulename) query_type query
      (if lucky_mode then 1 else search_limit (settings orpheus)) in
  result (search_and_select orpheus w lucky_mode modulename query_type query) = Return b ->
  exists i item,
    nth_error items i = Some item
    /\ (lucky_mode = true -> i = 0%nat)
    /\ b = [(modulename,
             [{| media_type := query_type;
                 media_id := result_id item;
                 mi_extra_kwargs := Some (extra_kwargs item) |}])].
Proof.
  intros items. unfold search_and_select. fold items.
  rewrite (result_bind_eq _ _ tt) by reflexivity.
  rewrite (result_bind_eq _ _ tt) by reflexivity.
  destruct (length items =? 0)%nat eqn:Elen; [discriminate|].
  apply Nat.eqb_neq in Elen. intro H.
  apply result_bind in H as (i & Hi & H).
  assert (Hb : 0 <= i < Z.of_nat (length items) /\ (lucky_mode = true -> i = 0)).
  { destruct lucky_mode.
    - injection Hi as <-. split; [lia | reflexivity].
    - apply result_bind in Hi as (sel & Hsel & Hi).
      apply interactive_selection_in_bounds in Hsel.
      rewrite (result_bind_eq _ _ tt) in Hi by reflexivity.
      injection Hi as <-. split; [assumption | discriminate]. }
  destruct Hb as (Hb & Hl).
  destruct (py_index_in_bounds items i Hb) as (x & Hx & Hn).
  rewrite (result_bind_eq _ _ x) in H by (unfold lift, result; simpl; exact Hx).
  injection H as <-. exists (Z.to_nat i), x. split; [assumption|].
  split; [|reflexivity]. intro E. rewrite (Hl E). reflexivity.
Qed.

(** X14. No search without a valid request. With fewer than four
    arguments, a module that is not registered or a media type that does
    not exist, the search mode loads no module, calls no search and
    yields no batch. *)
Theorem search_needs_valid_request (orpheus_mode : pystr) (args : list pystr) :
  (length args <= 3)%nat
  \/ str_in (lower (nth 1 args [])) (module_list orpheus) = false
  \/ DownloadTypeEnum.of_name (lower (nth 2 args [])) = None ->
  avoids is_outward (search_mode orpheus w orpheus_mode args)
  /\ forall b, result (search_mode orpheus w orpheus_mode args) <> Return (Some b).
Proof.
  intro H. unfold search_mode.
  destruct (3 <? length args)%nat eqn:Elen; [|split; [reflexivity | discriminate]].
  apply Nat.ltb_lt in Elen. destruct H as [H|[H|H]]; [lia| |].
  - rewrite H. destruct (str_eqb _ (lit "multi")); split; (reflexivity || discriminate).
  - rewrite H. destruct (str_in _ (module_list orpheus)).
    + split; [reflexivity | discriminate].
    + destruct (str_eqb _ (lit "multi")); split; (reflexivity || discriminate).
Qed.

(** X15. The overrides handed to the pipeline. They are listed for
    covers, lyrics and credits, in this order; an override is never the
    word "default": it is the lowercased argument, or the configured
    default of the capability when the argument is "default" in any
    letter case, and it is absent when both say "default". *)
Theorem overrides_resolved (args : Args) :
  map fst (tpm orpheus args)
  = [ModuleModes.covers; ModuleModes.lyrics; ModuleModes.credits]
  /\ (forall i v,
        In (i, Some v) (tpm orpheus args) ->
        v <> lit "default"
        /\ (v = lower (getattr args i)
            \/ lower (getattr args i) = lit "default"
               /\ v = module_defaults (settings orpheus) i))
  /\ (forall i,
        In (i, None) (tpm orpheus args) ->
        lower (getattr args i) = lit "default"
        /\ module_defaults (settings orpheus) i = lit "default").
Proof.
  assert (Hsel : forall i,
             match moduleselected orpheus args i with
             | Some v =>
                 v <> lit "default"
                 /\ (v = lower (getattr args i)
                     \/ lower (getattr args i) = lit "default"
                        /\ v = module_defaults (settings orpheus) i)
             | None => lower (getattr args i) = lit "default"
                       /\ module_defaults (settings orpheus) i = lit "default"
             end).
  { intro i. unfold moduleselected.
    destruct (str_eqb (lower (getattr args i)) (lit "default")) eqn:E1.
    - apply str_eqb_eq in E1.
      destruct (str_eqb (module_defaults (settings orpheus) i) (lit "default")) eqn:E2.
      + apply str_eqb_eq in E2. now split.
      + apply str_eqb_neq in E2. split; [assumption | right; now split].
    - rewrite E1. apply str_eqb_neq in E1. split; [assumption | now left]. }
  split; [reflexivity|]. split.
  - intros i v Hin. specialize (Hsel i). unfold tpm in Hin. simpl in Hin.
    destruct Hin as [E|[E|[E|[]]]]; injection E as <- E; rewrite E in Hsel; exact Hsel.
  - intros i Hin. specialize (Hsel i). unfold tpm in Hin. simpl in Hin.
    destruct Hin as [E|[E|[E|[]]]]; injection E as <- E; rewrite E in Hsel; exact Hsel.
Qed.

(** X16. Direct identifiers. When the download mode yields a batch,
    the module named by the second argument is registered, the third
    names a media type, and the batch has one entry for that module,
    with one identification per identifier argument, in the order of the
    arguments, each with that type, the identifier as it was typed and
    no extra arguments; no module is contacted. *)
Theorem direct_identifiers (args : list pystr) (b : batch) :
  result (download_mode orpheus args) = Return b ->
  exists t,
    (3 < length args)%nat
    /\ str_in (lower (nth 1 args [])) (module_list orpheus) = true
    /\ DownloadTypeEnum.of_name (lower (nth 2 args [])) = Some t
    /\ b = [(lower (nth 1 args []),
             map (fun i => {| media_type := t; media_id := i; mi_extra_kwargs := None |})
                 (skipn 3 args))]
    /\ (forall k,
          nth_error (map (fun i => {| media_type := t; media_id := i;
                                      mi_extra_kwargs := None |}) (skipn 3 args)) k
          = option_map (fun i => {| media_type := t; media_id := i;
                                    mi_extra_kwargs := None |}) (nth_error args (3 + k)))
    /\ length (skipn 3 args) = (length args - 3)%nat
    /\ trace (download_mode orpheus args) = [].
Proof.
  unfold download_mode.
  destruct (3 <? length args)%nat eqn:Elen; [|discriminate].
  destruct (str_in _ (module_list orpheus)) eqn:Em; [|discriminate].
  destruct (DownloadTypeEnum.of_name _) as [t|] eqn:Et; [|discriminate].
  intro H. injection H as <-. exists t. apply Nat.ltb_lt in Elen.
  repeat split; try assumption.
  - intro k. now rewrite nth_error_map, nth_error_skipn.
  - apply length_skipn.
Qed.

End Modes.

(** * The further properties at work on the sample installation *)


Lemma quality_code_witness :
  contains (lit "HiFi") (full_qual (sample_item "t1" "One" 1999 205)) = true
  /\ short_qual (sample_item "t1" "One" 1999 205) = lit "HiFi"
  /\ (length (short_qual (sample_item "t1" "One" 1999 205)) <= 6)%nat
  /\ full_qual sample_lossless_item = lit "Lossless 24-bit"
  /\ short_qual sample_lossless_item = lit "Lossle".
Proof.
  destruct (quality_code (sample_item "t1" "One" 1999 205)) as (Hlen & _ & _ & Hhifi & _).
  destruct (quality_code sample_lossless_item) as (_ & _ & _ & _ & Hcut & Hfull & _).
  split; [reflexivity|]. split; [exact (Hhifi eq_refl eq_refl eq_refl)|].
  split; [exact Hlen|].
  split; [exact (proj1 (Hfull (lit "Lossless 24-bit") [] eq_refl))|].
  exact (proj1 (Hcut eq_refl eq_refl eq_refl)).
Defined.

Lemma picked_row_position_witness :
  which_fzf sample_picker_world = true
  /\ nth_error sample_items 1 = Some (sample_item "t2" "Two" 2005 3661)
  /\ @interactive_selection sample_imports sample_picker_world sample_items
       DownloadTypeEnum.track
     = ([EvFzf (header DownloadTypeEnum.track)
           (join [NEWLINE] (@choices sample_imports DownloadTypeEnum.track sample_items))],
        Return 1).
Proof.
  split; [reflexivity|]. split; [reflexivity|].
  exact (proj2 (@picked_row_position sample_imports sample_picker_world sample_items
                  DownloadTypeEnum.track 1 (sample_item "t2" "Two" 2005 3661) [NEWLINE]
                  eq_refl eq_refl eq_refl)).
Defined.

Lemma picker_or_prompt_witness :
  which_fzf sample_world = false
  /\ result (@interactive_selection sample_imports sample_world sample_items
               DownloadTypeEnum.track) = Return 1
  /\ fzf_communicate sample_cancelled_world (header DownloadTypeEnum.track)
       (join [NEWLINE] (@choices sample_imports DownloadTypeEnum.track sample_items))
     = Some (130, [])
  /\ result (@interactive_selection sample_imports sample_cancelled_world sample_items
               DownloadTypeEnum.track) = Return 2
  /\ result (@interactive_selection sample_imports sample_picker_world sample_items
               DownloadTypeEnum.track) = Return 1.
Proof.
  destruct (@picker_or_prompt sample_imports sample_world sample_items
              DownloadTypeEnum.track) as (Hno & _).
  destruct (@picker_or_prompt sample_imports sample_cancelled_world sample_items
              DownloadTypeEnum.track) as (_ & _ & Hbad & _).
  assert (Hcancel : fzf_communicate sample_cancelled_world (header DownloadTypeEnum.track)
                      (join [NEWLINE]
                         (@choices sample_imports DownloadTypeEnum.track sample_items))
                    = Some (130, [])) by reflexivity.
  assert (Hcode : 130 <> 0 \/ hd [] (split DOT (strip [])) = []) by (left; discriminate).
  split; [reflexivity|]. split; [rewrite (Hno eq_refl); reflexivity|].
  split; [exact Hcancel|]. split.
  - rewrite (Hbad 130 [] eq_refl Hcancel Hcode). reflexivity.
  - reflexivity.
Defined.

Lemma sample_items_well_separated : Forall (@well_separated sample_imports) sample_items.
Proof.
  unfold sample_items, sample_zero_item.
  repeat (apply Forall_cons;
          [apply sample_well_separated; intros c [->| ->]; absent|]).
  apply Forall_nil.
Defined.

Lemma prompt_menu_witness :
  Forall (@well_separated sample_imports) sample_items
  /\ which_fzf sample_world = false
  /\ trace (@interactive_selection sample_imports sample_world sample_items
              DownloadTypeEnum.artist)
     = [EvPrint (lit "#   ARTIST"); EvPrint (lit "1.   One"); EvPrint (lit "2.   Two");
        EvPrint (lit "3.   Three"); EvInput (lit "Selection: ")].
Proof.
  split; [exact sample_items_well_separated|]. split; [reflexivity|].
  rewrite (proj1 (@prompt_menu sample_imports sample_world sample_items
                    DownloadTypeEnum.artist sample_items_well_separated eq_refl)).
  reflexivity.
Defined.

Lemma default_rule_precedence_witness :
  url_constants (module_settings sample_orpheus (lit "deezer")) = None
  /\ resolve_type sample_orpheus (lit "deezer") (lit "https://deezer.com/artist/1/album/2")
       [[]; lit "artist"; lit "1"; lit "album"; lit "2"] [(lit "deezer", [])]
     = ([], Return [(lit "deezer",
                     [{| media_type := DownloadTypeEnum.artist; media_id := lit "2";
                         mi_extra_kwargs := None |}])]).
Proof.
  split; [reflexivity|].
  rewrite (default_rule_precedence sample_orpheus (lit "deezer")
             (lit "https://deezer.com/artist/1/album/2")
             [[]; lit "artist"; lit "1"; lit "album"; lit "2"] [(lit "deezer", [])]
             (or_introl eq_refl)).
  reflexivity.
Defined.

Lemma identifier_from_path_witness :
  result (@process_link sample_imports sample_orpheus [] sample_album_link)
  = Return [(lit "deezer",
             [{| media_type := DownloadTypeEnum.album; media_id := lit "12345";
                 mi_extra_kwargs := None |}])]
  /\ exists x before between,
       path (@urlparse sample_imports sample_album_link)
       = before ++ [SLASH] ++ between ++ [SLASH] ++ media_id x
       /\ ~ In SLASH (media_id x).
Proof.
  split; [reflexivity|].
  destruct (@identifier_from_path sample_imports sample_orpheus (lit "deezer")
              sample_album_link [] _ eq_refl eq_refl ltac:(discriminate) eq_refl eq_refl)
    as (x & before & between & _ & Hpath & Hid & _).
  now exists x, before, between.
Defined.

Lemma batch_invariant_witness :
  result (@process_links sample_imports sample_orpheus [] sample_links)
  = Return [(lit "deezer",
             [{| media_type := DownloadTypeEnum.album; media_id := lit "12345";
                 mi_extra_kwargs := None |};
              {| media_type := DownloadTypeEnum.track; media_id := lit "2";
                 mi_extra_kwargs := None |};
              {| media_type := DownloadTypeEnum.playlist; media_id := lit "3";
                 mi_extra_kwargs := None |}]);
            (lit "custom", [sample_manual_id])]
  /\ NoDup [lit "deezer"; lit "custom"].
Proof.
  split; [reflexivity|].
  exact (proj1 (@batch_invariant sample_imports sample_orpheus sample_links _ eq_refl)).
Defined.

Lemma first_failure_witness :
  result (@process_links sample_imports sample_orpheus [] [sample_album_link])
  = Return [(lit "deezer",
             [{| media_type := DownloadTypeEnum.album; media_id := lit "12345";
                 mi_extra_kwargs := None |}])]
  /\ result (@process_links sample_imports sample_orpheus []
               ([sample_album_link] ++ sample_short_link :: [sample_short_manual_link]))
     = Exit
  /\ trace (@process_links sample_imports sample_orpheus []
              ([sample_album_link] ++ sample_short_link :: [sample_short_manual_link]))
     = [EvPrint ([TAB] ++ lit "Invalid URL: " ++ quoted sample_short_link)].
Proof.
  split; [reflexivity|].
  rewrite (@first_failure sample_imports sample_orpheus [sample_album_link]
             [sample_short_manual_link] sample_short_link [] _ eq_refl
             ltac:(intros d2; vm_compute; discriminate)).
  split; reflexivity.
Defined.

Lemma download_directory_witness :
  arguments (sample_args [lit "empty.txt"]) = [lit "empty.txt"]
  /\ @chosen_path sample_orpheus (sample_args [lit "empty.txt"]) = lit "./downloads" ++ [SLASH]
  /\ trace (@main sample_imports sample_orpheus sample_world (sample_args [lit "empty.txt"]))
     = [EvMakedirs (lit "./downloads"); EvPrint (lit "No links given");
        EvDownload []
          [(ModuleModes.covers, None); (ModuleModes.lyrics, None);
           (ModuleModes.credits, None)]
          (lit "default") (lit "./downloads")]
  /\ @chosen_path sample_orpheus (sample_root_args [lit "empty.txt"]) = [SLASH]
  /\ @main sample_imports sample_orpheus sample_world (sample_root_args [lit "empty.txt"])
     = ([EvMakedirs []], Raise FileNotFoundError).
Proof.
  split; [reflexivity|]. split; [reflexivity|].
  destruct (@download_directory sample_imports sample_orpheus sample_world
              (sample_args [lit "empty.txt"]) (lit "empty.txt") [] eq_refl eq_refl)
    as (_ & _ & _ & Hdir).
  destruct (@download_directory sample_imports sample_orpheus sample_world
              (sample_root_args [lit "empty.txt"]) (lit "empty.txt") [] eq_refl eq_refl)
    as (_ & _ & Hroot & _).
  destruct (Hdir (lit "./downloads") SLASH eq_refl) as (Hgo & _).
  rewrite (Hgo ltac:(discriminate) eq_refl).
  split; [reflexivity|]. split; [reflexivity | exact (Hroot eq_refl)].
Defined.


Lemma search_picks_a_result_witness :
  result (@search_and_select sample_imports sample_orpheus sample_world false (lit "deezer")
            DownloadTypeEnum.track (lit "test"))
  = Return [(lit "deezer",
             [{| media_type := DownloadTypeEnum.track; media_id := lit "t2";
                 mi_extra_kwargs := Some [] |}])]
  /\ exists i item,
       nth_error (search (load_module sample_orpheus (lit "deezer")) DownloadTypeEnum.track
                    (lit "test") (search_limit (settings sample_orpheus))) i = Some item
       /\ result_id item = lit "t2".
Proof.
  split; [reflexivity|].
  destruct (@search_picks_a_result sample_imports sample_orpheus sample_world false
              (lit "deezer") DownloadTypeEnum.track (lit "test") _ eq_refl)
    as (i & item & Hi & _ & Hb).
  exists i, item. split; [exact Hi|]. now injection Hb.
Defined.

Lemma search_needs_valid_request_witness :
  str_in (@lower sample_imports (nth 1 [lit "search"; lit "spotify"; lit "track"; lit "q"] []))
    (module_list sample_orpheus) = false
  /\ @search_mode sample_imports sample_orpheus sample_world (lit "search")
       [lit "search"; lit "spotify"; lit "track"; lit "q"]
     = ([], Raise (Exception (lit "Unknown module name " ++ quoted (lit "spotify")
                              ++ lit ". Must select from: legacy, deezer, custom")))
  /\ @avoids _ is_outward
       (@search_mode sample_imports sample_orpheus sample_world (lit "search")
          [lit "search"; lit "spotify"; lit "track"; lit "q"]).
Proof.
  split; [reflexivity|]. split; [reflexivity|].
  exact (proj1 (@search_needs_valid_request sample_imports sample_orpheus sample_world
                  (lit "search") [lit "search"; lit "spotify"; lit "track"; lit "q"]
                  (or_intror (or_introl eq_refl)))).
Defined.

Lemma overrides_resolved_witness :
  @tpm sample_imports sample_orpheus
    {| arguments := []; output := None; arg_lyrics := lit "Genius";
       arg_covers := lit "DEFAULT"; arg_credits := lit "default";
       separatedownload := lit "default" |}
  = [(ModuleModes.covers, None); (ModuleModes.lyrics, Some (lit "genius"));
     (ModuleModes.credits, None)]
  /\ lit "genius" <> lit "default".
Proof.
  split; [reflexivity|].
  exact (proj1 (proj1 (proj2 (@overrides_resolved sample_imports sample_orpheus
                                {| arguments := []; output := None;
                                   arg_lyrics := lit "Genius"; arg_covers := lit "DEFAULT";
                                   arg_credits := lit "default";
                                   separatedownload := lit "default" |}))
                  ModuleModes.lyrics (lit "genius") (or_intror (or_introl eq_refl)))).
Defined.

Lemma direct_identifiers_witness :
  result (@download_mode sample_imports sample_orpheus
            [lit "download"; lit "Deezer"; lit "ALBUM"; lit "Ab1"; lit "cD2"])
  = Return [(lit "deezer",
             [{| media_type := DownloadTypeEnum.album; media_id := lit "Ab1";
                 mi_extra_kwargs := None |};
              {| media_type := DownloadTypeEnum.album; media_id := lit "cD2";
                 mi_extra_kwargs := None |}])]
  /\ exists t, DownloadTypeEnum.of_name (@lower sample_imports (lit "ALBUM")) = Some t.
Proof.
  split; [reflexivity|].
  destruct (@direct_identifiers sample_imports sample_orpheus
              [lit "download"; lit "Deezer"; lit "ALBUM"; lit "Ab1"; lit "cD2"] _ eq_refl)
    as (t & _ & _ & Ht & _).
  now exists t.
Defined.
